(** * cloud-manager: the composed-action engine and its status-update builder

    A shallow embedding of [components/lib/composed/updateStatus.go]
    (the fluent [UpdateStatusBuilder] and its [Run]) and of the AWS
    IpRange reconciler entry point [iprange.New], together with the
    properties of both.

    Go values are embedded as follows.
    - A nilable interface value ([error], [context.Context], a func-typed
      field) is an [option]; [None] is Go's [nil].
    - The object under reconciliation lives on the heap and is reached
      through pointers ([b.obj.Conditions()] is a [*[]metav1.Condition]);
      its condition slice is the [conditions] field of the [World] that
      every effectful function threads.
    - [time.Now()] reads the [World]'s wall clock: the n-th reading of a
      run of the program is [clock n].
    - [logr.Logger.Error] appends to the [World]'s log. *)

From stdpp Require Import base option list gmap strings.
From Stdlib Require Import ZArith.

Local Open Scope Z_scope.
Local Open Scope string_scope.
Local Open Scope list_scope.

(** ** Errors, contexts, the world *)

(** Modelled from the spec: the sentinel errors [StopAndForget] and
    [StopWithRequeue] of package [composed] are declared outside the
    sources at hand; they are the spec's stop-and-forget and
    stop-and-requeue signals, "disjoint outcomes", told apart from each
    other and from every other error.  The other Go [error] values:
    [errorString] is [errors.New]; [wrapError] is [fmt.Errorf] with a
    [%w] verb, keeping the cause.  A nil error (the continue signal) is
    [None] of [option error]. *)
Inductive error : Type :=
  | StopAndForget
  | StopWithRequeue
  | errorString (s : string)
  | wrapError (prefix : string) (cause : error).

#[global] Instance error_eq_dec : EqDecision error.
Proof. solve_decision. Defined.

(** [context.Context]: only threaded through, never inspected here. *)
Inductive Context : Type :=
  | Background
  | WithValue (key val : string) (parent : Context).

#[global] Instance Context_eq_dec : EqDecision Context.
Proof. solve_decision. Defined.

Module metav1.

(** [metav1.Time]; the zero instant is [0]. *)
Definition Time : Type := Z.

Definition IsZero (t : Time) : bool := bool_decide (t = 0).

(** [metav1.Condition].  [Type] is a keyword, hence [Type_];
    [ConditionStatus] is a string type. *)
Record Condition : Type := mkCondition {
  Type_ : string;
  Status : string;
  ObservedGeneration : Z;
  LastTransitionTime : Time;
  Reason : string;
  Message : string;
}.

#[global] Instance Condition_eq_dec : EqDecision Condition.
Proof. solve_decision. Defined.

Definition withStatus (s : string) (c : Condition) : Condition :=
  mkCondition (Type_ c) s (ObservedGeneration c) (LastTransitionTime c)
              (Reason c) (Message c).
Definition withLastTransitionTime (t : Time) (c : Condition) : Condition :=
  mkCondition (Type_ c) (Status c) (ObservedGeneration c) t
              (Reason c) (Message c).
Definition withReason (r : string) (c : Condition) : Condition :=
  mkCondition (Type_ c) (Status c) (ObservedGeneration c)
              (LastTransitionTime c) r (Message c).
Definition withMessage (m : string) (c : Condition) : Condition :=
  mkCondition (Type_ c) (Status c) (ObservedGeneration c)
              (LastTransitionTime c) (Reason c) m.
Definition withObservedGeneration (g : Z) (c : Condition) : Condition :=
  mkCondition (Type_ c) (Status c) g (LastTransitionTime c)
              (Reason c) (Message c).

End metav1.
Export metav1.

(** One line written through [logr.Logger.Error]. *)
Record LogEntry : Type := mkLogEntry {
  logErr : option error;
  logMsg : string;
}.

Record World : Type := mkWorld {
  conditions : list Condition;   (* [*obj.Conditions()] *)
  clock : nat -> Time;           (* successive readings of [time.Now()] *)
  ticks : nat;                   (* readings taken so far *)
  logged : list LogEntry;        (* oldest first *)
}.

Definition setConditions (cs : list Condition) (w : World) : World :=
  mkWorld cs (clock w) (ticks w) (logged w).

(** ** The effect monad: state passing over [World] *)

Definition M (A : Type) : Type := World -> A * World.

Definition ret {A} (a : A) : M A := fun w => (a, w).

Definition bind {A B} (m : M A) (k : A -> M B) : M B :=
  fun w => let (a, w') := m w in k a w'.

Notation "x <- m ;; k" := (bind m (fun x => k))
  (at level 100, m at next level, right associativity).
Notation "m ;;; k" := (bind m (fun _ => k))
  (at level 100, right associativity).

(** [for _, x := range l { f(x) }] *)
Fixpoint forEach {A} (l : list A) (f : A -> M unit) : M unit :=
  match l with
  | [] => ret tt
  | x :: l' => f x ;;; forEach l' f
  end.

(** [*p] and [*p = cs] for the pointer returned by [obj.Conditions()]. *)
Definition loadConditions : M (list Condition) :=
  fun w => (conditions w, w).
Definition storeConditions (cs : list Condition) : M unit :=
  fun w => (tt, setConditions cs w).

(** [time.Now()] *)
Definition time_Now : M Time :=
  fun w => (clock w (ticks w),
            mkWorld (conditions w) (clock w) (S (ticks w)) (logged w)).

(** [logger.Error(err, msg)] *)
Definition logger_Error (err : option error) (msg : string) : M unit :=
  fun w => (tt, mkWorld (conditions w) (clock w) (ticks w)
                        (logged w ++ [mkLogEntry err msg])).

(** ** k8s.io/apimachinery/pkg/api/meta: the condition helpers

    [Run] calls [meta.RemoveStatusCondition] and [meta.SetStatusCondition]
    of the Kubernetes library (the releases in which both return a bool,
    as the [_ =] at the call sites requires).  They are embedded from the
    library, statement by statement; the slice pointer they receive is
    always [b.obj.Conditions()], the [conditions] of the [World]. *)
Module meta.

(** [FindStatusCondition] returns a pointer into the slice: here the
    index of the first entry of the given type. *)
Fixpoint FindStatusCondition (conds : list Condition) (conditionType : string)
  : option nat :=
  match conds with
  | [] => None
  | c :: rest =>
      if decide (Type_ c = conditionType) then Some 0%nat
      else S <$> FindStatusCondition rest conditionType
  end.

(** The body of [SetStatusCondition] once the entry exists: the
    field-by-field update of [*existingCondition], returning the new
    entry and [changed]. *)
Definition updateExisting (existing newCondition : Condition)
  : M (Condition * bool) :=
  r1 <- (if decide (Status existing ≠ Status newCondition) then
           let e := withStatus (Status newCondition) existing in
           if negb (IsZero (LastTransitionTime newCondition)) then
             ret (withLastTransitionTime (LastTransitionTime newCondition) e, true)
           else
             now <- time_Now ;;
             ret (withLastTransitionTime now e, true)
         else ret (existing, false)) ;;
  let r2 := if decide (Reason r1.1 ≠ Reason newCondition)
            then (withReason (Reason newCondition) r1.1, true) else r1 in
  let r3 := if decide (Message r2.1 ≠ Message newCondition)
            then (withMessage (Message newCondition) r2.1, true) else r2 in
  let r4 := if decide (ObservedGeneration r3.1 ≠ ObservedGeneration newCondition)
            then (withObservedGeneration (ObservedGeneration newCondition) r3.1, true)
            else r3 in
  ret r4.

Definition SetStatusCondition (newCondition : Condition) : M bool :=
  conds <- loadConditions ;;
  match FindStatusCondition conds (Type_ newCondition) with
  | None =>
      newCondition' <-
        (if IsZero (LastTransitionTime newCondition) then
           now <- time_Now ;;
           ret (withLastTransitionTime now newCondition)
         else ret newCondition) ;;
      storeConditions (conds ++ [newCondition']) ;;;
      ret true
  | Some i =>
      match conds !! i with
      | Some existing =>
          r <- updateExisting existing newCondition ;;
          storeConditions (<[i := r.1]> conds) ;;;
          ret r.2
      | None => ret false
      end
  end.

Definition RemoveStatusCondition (conditionType : string) : M bool :=
  conds <- loadConditions ;;
  if decide (length conds = 0%nat) then ret false
  else
    let newConditions :=
      foldl (fun acc condition =>
               if decide (Type_ condition ≠ conditionType)
               then acc ++ [condition] else acc) [] conds in
    let removed := bool_decide (length conds ≠ length newConditions) in
    storeConditions newConditions ;;;
    ret removed.

End meta.

(** ** Package composed *)
Module composed.

(** An [Action] is [func(ctx context.Context, state State) (error,
    context.Context)]; [S] is the dynamic type of the state handed in. *)
Definition Result : Type := (option error * option Context)%type.
Definition Action (S : Type) : Type := Context -> S -> M Result.

(** The part of the [State] interface that [Run] uses. *)
Record State : Type := mkState {
  UpdateObjStatus : Context -> M (option error);
}.

(** [ObjWithConditions]: the object is on the heap (its condition slice
    is [conditions] of the [World]); the handle keeps what [%T] prints. *)
Record ObjWithConditions : Type := mkObj {
  goTypeName : string;
}.

(** A value of [func(ctx, err) (error, context.Context)] held in
    [onUpdateError]: a function supplied through [OnUpdateError], or the
    closure [setDefaults] installs, which captures the builder pointer
    and reads its fields when it is called. *)
Inductive ErrorHook : Type :=
  | ErrorHookFunc (f : Context -> option error -> M Result)
  | ErrorHookDefault.

Inductive SuccessHook : Type :=
  | SuccessHookFunc (f : Context -> M Result)
  | SuccessHookDefault.

Record UpdateStatusBuilder : Type := mkBuilder {
  obj : ObjWithConditions;
  doRemoveConditions : bool;
  conditionsToKeep : gset string;
  conditionsToSet : list Condition;
  updateErrorLogMsg : string;
  failedError : option error;
  successError : option error;
  updateErrorWrapper : option (option error -> M (option error));
  onUpdateError : option ErrorHook;
  onUpdateSuccess : option SuccessHook;
}.

Definition UpdateStatus (o : ObjWithConditions) : UpdateStatusBuilder :=
  {| obj := o;
     doRemoveConditions := false;
     conditionsToKeep := ∅;
     conditionsToSet := [];
     updateErrorLogMsg := "";
     failedError := None;
     successError := None;
     updateErrorWrapper := None;
     onUpdateError := None;
     onUpdateSuccess := None |}.

Definition RemoveAllConditionsExcept (conditionTypes : list string)
    (b : UpdateStatusBuilder) : UpdateStatusBuilder :=
  {| obj := obj b;
     doRemoveConditions := doRemoveConditions b;
     conditionsToKeep :=
       foldl (fun keep c => {[ c ]} ∪ keep) (conditionsToKeep b) conditionTypes;
     conditionsToSet := conditionsToSet b;
     updateErrorLogMsg := updateErrorLogMsg b;
     failedError := failedError b;
     successError := successError b;
     updateErrorWrapper := updateErrorWrapper b;
     onUpdateError := onUpdateError b;
     onUpdateSuccess := onUpdateSuccess b |}.

Definition KeepAllConditions (b : UpdateStatusBuilder) : UpdateStatusBuilder :=
  {| obj := obj b;
     doRemoveConditions := false;
     conditionsToKeep := conditionsToKeep b;
     conditionsToSet := conditionsToSet b;
     updateErrorLogMsg := updateErrorLogMsg b;
     failedError := failedError b;
     successError := successError b;
     updateErrorWrapper := updateErrorWrapper b;
     onUpdateError := onUpdateError b;
     onUpdateSuccess := onUpdateSuccess b |}.

Definition SetCondition (cond : Condition) (b : UpdateStatusBuilder)
  : UpdateStatusBuilder :=
  {| obj := obj b;
     doRemoveConditions := doRemoveConditions b;
     conditionsToKeep := conditionsToKeep b;
     conditionsToSet := conditionsToSet b ++ [cond];
     updateErrorLogMsg := updateErrorLogMsg b;
     failedError := failedError b;
     successError := successError b;
     updateErrorWrapper := updateErrorWrapper b;
     onUpdateError := onUpdateError b;
     onUpdateSuccess := onUpdateSuccess b |}.

Definition ErrorLogMessage (msg : string) (b : UpdateStatusBuilder)
  : UpdateStatusBuilder :=
  {| obj := obj b;
     doRemoveConditions := doRemoveConditions b;
     conditionsToKeep := conditionsToKeep b;
     conditionsToSet := conditionsToSet b;
     updateErrorLogMsg := msg;
     failedError := failedError b;
     successError := successError b;
     updateErrorWrapper := updateErrorWrapper b;
     onUpdateError := onUpdateError b;
     onUpdateSuccess := onUpdateSuccess b |}.

Definition UpdateErrorWrapper (f : option (option error -> M (option error)))
    (b : UpdateStatusBuilder) : UpdateStatusBuilder :=
  {| obj := obj b;
     doRemoveConditions := doRemoveConditions b;
     conditionsToKeep := conditionsToKeep b;
     conditionsToSet := conditionsToSet b;
     updateErrorLogMsg := updateErrorLogMsg b;
     failedError := failedError b;
     successError := successError b;
     updateErrorWrapper := f;
     onUpdateError := onUpdateError b;
     onUpdateSuccess := onUpdateSuccess b |}.

Definition OnUpdateError (f : option (Context -> option error -> M Result))
    (b : UpdateStatusBuilder) : UpdateStatusBuilder :=
  {| obj := obj b;
     doRemoveConditions := doRemoveConditions b;
     conditionsToKeep := conditionsToKeep b;
     conditionsToSet := conditionsToSet b;
     updateErrorLogMsg := updateErrorLogMsg b;
     failedError := failedError b;
     successError := successError b;
     updateErrorWrapper := updateErrorWrapper b;
     onUpdateError := ErrorHookFunc <$> f;
     onUpdateSuccess := onUpdateSuccess b |}.

Definition OnUpdateSuccess (f : option (Context -> M Result))
    (b : UpdateStatusBuilder) : UpdateStatusBuilder :=
  {| obj := obj b;
     doRemoveConditions := doRemoveConditions b;
     conditionsToKeep := conditionsToKeep b;
     conditionsToSet := conditionsToSet b;
     updateErrorLogMsg := updateErrorLogMsg b;
     failedError := failedError b;
     successError := successError b;
     updateErrorWrapper := updateErrorWrapper b;
     onUpdateError := onUpdateError b;
     onUpdateSuccess := SuccessHookFunc <$> f |}.

Definition FailedError (err : option error) (b : UpdateStatusBuilder)
  : UpdateStatusBuilder :=
  {| obj := obj b;
     doRemoveConditions := doRemoveConditions b;
     conditionsToKeep := conditionsToKeep b;
     conditionsToSet := conditionsToSet b;
     updateErrorLogMsg := updateErrorLogMsg b;
     failedError := err;
     successError := successError b;
     updateErrorWrapper := updateErrorWrapper b;
     onUpdateError := onUpdateError b;
     onUpdateSuccess := onUpdateSuccess b |}.

Definition SuccessError (err : option error) (b : UpdateStatusBuilder)
  : UpdateStatusBuilder :=
  {| obj := obj b;
     doRemoveConditions := doRemoveConditions b;
     conditionsToKeep := conditionsToKeep b;
     conditionsToSet := conditionsToSet b;
     updateErrorLogMsg := updateErrorLogMsg b;
     failedError := failedError b;
     successError := err;
     updateErrorWrapper := updateErrorWrapper b;
     onUpdateError := onUpdateError b;
     onUpdateSuccess := onUpdateSuccess b |}.

(** Modelled from the spec: [LogErrorAndReturn] is defined in a file of
    package [composed] that is not part of the sources at hand.  The
    default on-persistence-error hook "logs the (wrapped) error and
    returns" the configured failure signal: the helper logs [err] under
    [msg] and hands back [result] and [ctx] as they are. *)
Definition LogErrorAndReturn (err : option error) (msg : string)
    (result : option error) (ctx : option Context) : M Result :=
  logger_Error err msg ;;;
  ret (result, ctx).

(** [fmt.Sprintf("Error updating status for %T", b.obj)] *)
Definition defaultErrorLogMsg (o : ObjWithConditions) : string :=
  "Error updating status for " +:+ goTypeName o.

Definition setDefaults (b : UpdateStatusBuilder) : UpdateStatusBuilder :=
  {| obj := obj b;
     doRemoveConditions := true;
     conditionsToKeep := conditionsToKeep b;
     conditionsToSet := conditionsToSet b;
     updateErrorLogMsg := defaultErrorLogMsg (obj b);
     failedError :=
       match failedError b with
       | None => Some StopWithRequeue
       | Some e => Some e
       end;
     successError :=
       match successError b with
       | None => Some StopAndForget
       | Some e => Some e
       end;
     updateErrorWrapper :=
       match updateErrorWrapper b with
       | None => Some (fun err => ret err)
       | Some f => Some f
       end;
     onUpdateError :=
       match onUpdateError b with
       | None => Some ErrorHookDefault
       | Some h => Some h
       end;
     onUpdateSuccess :=
       match onUpdateSuccess b with
       | None => Some SuccessHookDefault
       | Some h => Some h
       end |}.

(** Calls through the builder's func-typed fields.  [Run] makes them
    after [setDefaults], when none of the fields is nil; the [None]
    branches are never reached from [Run] (see [setDefaults_fields]). *)
Definition callUpdateErrorWrapper (b : UpdateStatusBuilder)
    (err : option error) : M (option error) :=
  match updateErrorWrapper b with
  | Some f => f err
  | None => ret err
  end.

Definition callOnUpdateError (b : UpdateStatusBuilder) (ctx : Context)
    (err : option error) : M Result :=
  match onUpdateError b with
  | Some (ErrorHookFunc f) => f ctx err
  | Some ErrorHookDefault =>
      LogErrorAndReturn err (updateErrorLogMsg b) (failedError b) None
  | None => ret (err, None)
  end.

Definition callOnUpdateSuccess (b : UpdateStatusBuilder) (ctx : Context)
  : M Result :=
  match onUpdateSuccess b with
  | Some (SuccessHookFunc f) => f ctx
  | Some SuccessHookDefault => ret (successError b, None)
  | None => ret (None, None)
  end.

(** The first loop of [Run]: the types of the entries whose type is not
    a key of [conditionsToKeep], one per entry, in slice order. *)
Definition conditionsToRemove (keep : gset string) (conds : list Condition)
  : list string :=
  foldl (fun acc c => if decide (Type_ c ∈ keep) then acc
                      else acc ++ [Type_ c]) [] conds.

(** [Run] mutates the builder through its pointer receiver
    ([setDefaults]); the builder as [Run] leaves it is returned next to
    the Go results. *)
Definition Run (b : UpdateStatusBuilder) (ctx : Context) (state : State)
  : M (UpdateStatusBuilder * Result) :=
  let b := setDefaults b in
  (if doRemoveConditions b then
     conds <- loadConditions ;;
     forEach (conditionsToRemove (conditionsToKeep b) conds)
             (fun c => _ <- meta.RemoveStatusCondition c ;; ret tt)
   else ret tt) ;;;
  forEach (conditionsToSet b)
          (fun c => _ <- meta.SetStatusCondition c ;; ret tt) ;;;
  err <- UpdateObjStatus state ctx ;;
  match err with
  | Some e =>
      err' <- callUpdateErrorWrapper b (Some e) ;;
      r <- callOnUpdateError b ctx err' ;;
      ret (b, r)
  | None =>
      r <- callOnUpdateSuccess b ctx ;;
      ret (b, r)
  end.

(** Modelled from the spec: [ComposeActions] is defined in a file of
    package [composed] that is not part of the sources at hand (only
    its call sites in [iprange.New] are).  "Executes step_1 through
    step_n in declared order against the shared State; after each step,
    inspects the returned signal: continue: proceed to next step,
    carrying forward any updated ambient context; stop-and-forget /
    stop-and-requeue / propagate: immediately return that signal; no
    later step runs.  If the list is exhausted with no terminal signal,
    the composer itself returns continue."  The name "has no semantic
    effect".  The spec leaves open which context accompanies the signal;
    the ambient context as carried forward so far is returned. *)
Fixpoint runActions {S} (actions : list (Action S)) (ctx : Context)
    (state : S) : M Result :=
  match actions with
  | [] => ret (None, Some ctx)
  | a :: rest =>
      r <- a ctx state ;;
      let ctx' := default ctx r.2 in
      match r.1 with
      | Some signal => ret (Some signal, Some ctx')
      | None => runActions rest ctx' state
      end
  end.

(** Modelled from the spec: [ComposeActions(name, actions...)], the
    sequential composer just described; [name] is for diagnostics only. *)
Definition ComposeActions {S} (name : string) (actions : list (Action S))
  : Action S :=
  fun ctx state => runActions actions ctx state.

(** Modelled from the spec: a [Case] is "a (predicate,
    composed-pipeline) pair"; the predicate is "a pure function of
    State -> boolean", evaluated "over current State", that is, it may
    read the world and cannot change it. *)
Definition Predicate (S : Type) : Type := S -> World -> bool.

Record Case (S : Type) : Type := NewCase {
  casePredicate : Predicate S;
  caseAction : Action S;
}.
Arguments NewCase {S} _ _.
Arguments casePredicate {S} _.
Arguments caseAction {S} _.

(** Modelled from the spec: the choice [BuildSwitchAction] makes, which
    is not part of the sources at hand either.  "Evaluate each case's
    predicate over current State, in order; on first match, execute that
    case's pipeline and return its result, ignoring default_pipeline
    entirely.  If no case matches, execute default_pipeline." *)
Fixpoint selectCase {S} (cases : list (Case S)) (defaultAction : Action S)
    (state : S) (w : World) : Action S :=
  match cases with
  | [] => defaultAction
  | c :: rest =>
      if casePredicate c state w then caseAction c
      else selectCase rest defaultAction state w
  end.

(** Modelled from the spec: [BuildSwitchAction(name, defaultAction,
    cases...)] runs the pipeline so chosen. *)
Definition BuildSwitchAction {S} (name : string) (defaultAction : Action S)
    (cases : list (Case S)) : Action S :=
  fun ctx state w => selectCase cases defaultAction state w ctx state w.

(** Modelled from the spec: [LoggerFromCtx] is declared outside the
    sources at hand and logging wiring is out of the spec's scope; the
    logger is a handle on the context it came from, and [Error] on it
    appends a line to the log. *)
Inductive Logger : Type := loggerOf (ctx : Context).

Definition LoggerFromCtx (ctx : Context) : Logger := loggerOf ctx.

Definition Logger_Error (logger : Logger) (err : option error) (msg : string)
  : M unit :=
  logger_Error err msg.

End composed.

(** ** Package iprange (AWS): the reconciler entry point *)
Module iprange.

Import composed.

Section New.

(** [St]: the values a [composed.State] handed to the action may hold;
    [TypesState]: those of them that implement [iprangetypes.State];
    [AwsState]: the package's own [*State]. *)
Variables St TypesState AwsState : Type.

(** The type assertion [st.(iprangetypes.State)]: [None] when the
    dynamic type does not implement the interface (the assertion
    panics). *)
Variable assertTypesState : St -> option TypesState.

(** The [StateFactory] interface. *)
Record StateFactory : Type := mkStateFactory {
  NewState : Context -> TypesState -> M (AwsState * option error);
}.

(** The steps of the two pipelines and the two helpers of package
    [composed] that [New] names; none of them is defined in the
    sources at hand, so [New] takes them as given. *)
Record Steps : Type := mkSteps {
  addFinalizer : Action AwsState;
  preventCidrEdit : Action AwsState;
  splitRangeByZones : Action AwsState;
  ensureShootZonesAndRangeSubnetsMatch : Action AwsState;
  loadVpc : Action AwsState;
  checkCidrOverlap : Action AwsState;
  checkCidrBlockStatus : Action AwsState;
  extendVpcAddressSpace : Action AwsState;
  loadSubnets : Action AwsState;
  findCloudResourceSubnets : Action AwsState;
  checkSubnetOverlap : Action AwsState;
  createSubnets : Action AwsState;
  updateSuccessStatus : Action AwsState;
  StopAndForgetAction : Action AwsState;
  MarkedForDeletionPredicate : Predicate AwsState;
  removeReadyCondition : Action AwsState;
  deleteSubnets : Action AwsState;
  waitSubnetsDeleted : Action AwsState;
  disassociateVpcAddressSpace : Action AwsState;
  waitCidrBlockDisassociated : Action AwsState;
  removeFinalizer : Action AwsState;
}.

Variable steps : Steps.

Definition nonDeletePipeline : Action AwsState :=
  ComposeActions "awsIpRange-non-delete"
    [ addFinalizer steps;
      preventCidrEdit steps;
      splitRangeByZones steps;
      ensureShootZonesAndRangeSubnetsMatch steps;
      loadVpc steps;
      checkCidrOverlap steps;
      checkCidrBlockStatus steps;
      extendVpcAddressSpace steps;
      loadSubnets steps;
      findCloudResourceSubnets steps;
      checkSubnetOverlap steps;
      createSubnets steps;
      updateSuccessStatus steps;
      StopAndForgetAction steps ].

Definition deletePipeline : Action AwsState :=
  ComposeActions "awsIpRange-delete"
    [ removeReadyCondition steps;
      loadVpc steps;
      loadSubnets steps;
      findCloudResourceSubnets steps;
      deleteSubnets steps;
      waitSubnetsDeleted steps;
      disassociateVpcAddressSpace steps;
      waitCidrBlockDisassociated steps;
      removeFinalizer steps ].

(** The action [New] returns.  [None] stands for the panic of a failed
    type assertion; otherwise the Go results. *)
Definition New (stateFactory : StateFactory) (ctx : Context) (st : St)
  : M (option Result) :=
  let logger := LoggerFromCtx ctx in
  match assertTypesState st with
  | None => ret None
  | Some st' =>
      r <- NewState stateFactory ctx st' ;;
      let (state, err) := r in
      match err with
      | Some e =>
          let err := wrapError "error creating new aws iprange state: " e in
          Logger_Error logger (Some err) "Error" ;;;
          ret (Some (Some StopAndForget, None))
      | None =>
          res <- BuildSwitchAction "awsIpRange"
                   nonDeletePipeline
                   [ NewCase (MarkedForDeletionPredicate steps) deletePipeline ]
                   ctx state ;;
          ret (Some res)
      end
  end.

End New.

Arguments NewState {TypesState AwsState} _ _ _ _.
Arguments New {St TypesState AwsState} _ _ _ _ _ _.
Arguments nonDeletePipeline {AwsState} _ _ _ _.
Arguments deletePipeline {AwsState} _ _ _ _.

End iprange.

Import composed.

(** * Specification-side definitions *)

(** What [RemoveStatusCondition] leaves in the slice. *)
Definition removeType (t : string) (cs : list Condition) : list Condition :=
  filter (fun c => Type_ c ≠ t) cs.

Definition removeLoop (ts : list string) : M unit :=
  forEach ts (fun c => _ <- meta.RemoveStatusCondition c ;; ret tt).

(** The slice the removal loop of [Run] leaves: the entries whose type is
    a key of [conditionsToKeep], in their order. *)
Definition keepOnly (keep : gset string) (cs : list Condition) : list Condition :=
  filter (fun c => Type_ c ∈ keep) cs.

(** The entry [FindStatusCondition] points to. *)
Definition conditionOf (cs : list Condition) (t : string) : option Condition :=
  i ← meta.FindStatusCondition cs t; cs !! i.

(** The entry [SetStatusCondition] appends when the type is new: its
    transition time is read from the clock when it has none. *)
Definition stamped (now : Time) (newCondition : Condition) : Condition :=
  if IsZero (LastTransitionTime newCondition)
  then withLastTransitionTime now newCondition
  else newCondition.

(** The entry [SetStatusCondition] leaves in place of [existing]: the
    transition time moves only when the status does. *)
Definition updated (now : Time) (existing newCondition : Condition) : Condition :=
  mkCondition (Type_ existing) (Status newCondition)
    (ObservedGeneration newCondition)
    (if decide (Status existing ≠ Status newCondition) then
       if IsZero (LastTransitionTime newCondition) then now
       else LastTransitionTime newCondition
     else LastTransitionTime existing)
    (Reason newCondition) (Message newCondition).

Fixpoint upsert (now : Time) (newCondition : Condition) (cs : list Condition)
  : list Condition :=
  match cs with
  | [] => [stamped now newCondition]
  | c :: rest =>
      if decide (Type_ c = Type_ newCondition)
      then updated now c newCondition :: rest
      else c :: upsert now newCondition rest
  end.

(** Two entries that agree on everything but the transition time. *)
Definition stripTime (c : Condition) : Condition := withLastTransitionTime 0 c.

(** The worlds an operation may lead to without touching anything but the
    clock's position. *)
Definition sameButTicks (w w' : World) : Prop :=
  conditions w' = conditions w /\ clock w' = clock w /\ logged w' = logged w.

Definition setLoop (cs : list Condition) : M unit :=
  forEach cs (fun c => _ <- meta.SetStatusCondition c ;; ret tt).

(** Everything [Run] does to the condition slice before it calls the
    persistence capability. *)
Definition applyConditionChanges (b : UpdateStatusBuilder) : M unit :=
  (if doRemoveConditions b then
     conds <- loadConditions ;;
     removeLoop (conditionsToRemove (conditionsToKeep b) conds)
   else ret tt) ;;;
  setLoop (conditionsToSet b).

(** The last entry of a given type among the conditions to set. *)
Definition lastSet (l : list Condition) (t : string) : option Condition :=
  last (filter (fun c => Type_ c = t) l).

(** A computation that leaves the object's condition slice as it found it. *)
Definition keepsConditions {A} (m : M A) : Prop :=
  forall w, conditions (m w).2 = conditions w.

(** The persistence capability writes the status out; it does not edit
    the in-memory slice. *)
Definition stateKeepsConditions (st : State) : Prop :=
  forall ctx, keepsConditions (UpdateObjStatus st ctx).

(** The functions handed to [UpdateErrorWrapper], [OnUpdateError] and
    [OnUpdateSuccess] do not edit the slice either. *)
Definition hooksKeepConditions (b : UpdateStatusBuilder) : Prop :=
  (forall f, updateErrorWrapper b = Some f -> forall e, keepsConditions (f e)) /\
  (forall f, onUpdateError b = Some (ErrorHookFunc f) ->
     forall ctx e, keepsConditions (f ctx e)) /\
  (forall f, onUpdateSuccess b = Some (SuccessHookFunc f) ->
     forall ctx, keepsConditions (f ctx)).

(** ** The five steps of [run] in the words of the specification

    None of the definitions below is taken from [Run], [setDefaults] or
    the library helpers. *)

(** Step 1: "compute the set of condition types present on the object but
    absent from the keep-list, and remove each". *)
Definition removeStale (keep : gset string) (conds : list Condition)
  : list Condition :=
  let present : gset string := list_to_set (Type_ <$> conds) in
  let stale : gset string := present ∖ keep in
  filter (fun c => Type_ c ∉ stale) conds.

(** Step 2: "upsert (replace if type exists, else append)", by type key. *)
Fixpoint upsertByType (entry : Condition) (conds : list Condition)
  : list Condition :=
  match conds with
  | [] => [entry]
  | c :: rest =>
      if decide (Type_ c = Type_ entry) then entry :: rest
      else c :: upsertByType entry rest
  end.

(** Steps 1 and 2 on a condition list. *)
Definition reconciled (removalActive : bool) (keep : gset string)
    (toSet conds : list Condition) : list Condition :=
  foldl (fun acc entry => upsertByType entry acc)
        (if removalActive then removeStale keep conds else conds) toSet.

(** The specification does not say which transition time an upserted entry
    gets.  [actual] agrees with [expected] apart from that: entry by
    entry, in order, the two are equal but for the transition time, and
    equal outright where the type is none of those set. *)
Definition sameButSetTimes (toSet actual expected : list Condition) : Prop :=
  Forall2 (fun a e => stripTime a = stripTime e /\
                      (Type_ e ∉ (Type_ <$> toSet) -> a = e))
          actual expected.

(** "error-wrapper: function applied to a persistence error before
    handling - default identity". *)
Definition errorWrapperOf (b : UpdateStatusBuilder)
  : option error -> M (option error) :=
  match updateErrorWrapper b with
  | Some f => f
  | None => fun err => ret err
  end.

(** "on-persistence-error hook: default logs the (wrapped) error and
    returns stop-and-requeue (configurable failure signal, default
    stop-and-requeue)". *)
Definition onPersistenceError (b : UpdateStatusBuilder) (ctx : Context)
    (err : option error) : M Result :=
  match onUpdateError b with
  | Some (ErrorHookFunc f) => f ctx err
  | _ =>
      logger_Error err (defaultErrorLogMsg (obj b)) ;;;
      ret (Some (default StopWithRequeue (failedError b)), None)
  end.

(** "on-persistence-success hook: default returns stop-and-forget
    (configurable success signal, default stop-and-forget)". *)
Definition onPersistenceSuccess (b : UpdateStatusBuilder) (ctx : Context)
  : M Result :=
  match onUpdateSuccess b with
  | Some (SuccessHookFunc f) => f ctx
  | _ => ret (Some (default StopAndForget (successError b)), None)
  end.

(** [Run_steps removalActive b ctx state w out]: [out] (the signal and
    context returned, and the world left) is what the five steps give
    from world [w].  Steps 1 and 2 lead to a world [w1] whose conditions
    are the reconciled ones; step 3 calls the persistence capability
    there; step 4 or 5 handles what it returned. *)
Definition Run_steps (removalActive : bool) (b : UpdateStatusBuilder)
    (ctx : Context) (state : State) (w : World) (out : Result * World) : Prop :=
  exists w1,
    (* 1, 2 *)
    sameButSetTimes (conditionsToSet b) (conditions w1)
      (reconciled removalActive (conditionsToKeep b) (conditionsToSet b)
                  (conditions w)) /\
    clock w1 = clock w /\ logged w1 = logged w /\
    (* 3 *)
    let (err, w2) := UpdateObjStatus state ctx w1 in
    match err with
    | Some e =>
        (* 4 *)
        out = (err' <- errorWrapperOf b (Some e) ;;
               onPersistenceError b ctx err') w2
    | None =>
        (* 5 *)
        out = onPersistenceSuccess b ctx w2
    end.

(** What [Run] does once the slice has been reconciled. *)
Definition persistAndReport (b : UpdateStatusBuilder) (ctx : Context)
    (state : State) : M (UpdateStatusBuilder * Result) :=
  err <- UpdateObjStatus state ctx ;;
  match err with
  | Some e =>
      err' <- callUpdateErrorWrapper b (Some e) ;;
      r <- callOnUpdateError b ctx err' ;;
      ret (b, r)
  | None =>
      r <- callOnUpdateSuccess b ctx ;;
      ret (b, r)
  end.

(** ** Example inputs *)

(** An IpRange object, a clock that advances by one at every reading, a
    state whose status update succeeds and one whose update fails. *)
Definition obj0 : ObjWithConditions := mkObj "*v1beta1.IpRange".
Definition clock0 : nat -> Time := fun n => 100 + Z.of_nat n.
Definition world0 (cs : list Condition) : World := mkWorld cs clock0 0 [].
Definition okState : State := mkState (fun _ => ret None).
Definition failingState : State :=
  mkState (fun _ => ret (Some (errorString "conflict"))).

Definition condA : Condition := mkCondition "A" "True" 1 50 "ReasonA" "a".
Definition condB : Condition := mkCondition "B" "False" 1 60 "ReasonB" "b".
Definition condReadyOld : Condition :=
  mkCondition "Ready" "False" 1 40 "Provisioning" "not yet".
Definition condOverlap : Condition :=
  mkCondition "Overlap" "True" 1 45 "CidrOverlap" "overlaps".
(** A condition as the reconciler steps build it: no transition time. *)
Definition condReady : Condition :=
  mkCondition "Ready" "True" 0 0 "Ready" "provisioned".

Definition builderReady : UpdateStatusBuilder :=
  SetCondition condReady (UpdateStatus obj0).

Definition builderKeepReady : UpdateStatusBuilder :=
  SetCondition condReady (RemoveAllConditionsExcept ["Ready"] (UpdateStatus obj0)).

(** [continuesThrough steps ctx st w ctx' w']: run in order from context
    [ctx] and world [w], every step of [steps] returns continue; the chain
    ends in context [ctx'] and world [w']. *)
Inductive continuesThrough {S} :
    list (Action S) -> Context -> S -> World -> Context -> World -> Prop :=
  | continuesThrough_nil ctx st w :
      continuesThrough [] ctx st w ctx w
  | continuesThrough_cons a rest ctx st w nextCtx w1 ctx' w' :
      a ctx st w = ((None, nextCtx), w1) ->
      continuesThrough rest (default ctx nextCtx) st w1 ctx' w' ->
      continuesThrough (a :: rest) ctx st w ctx' w'.

(** Example steps: each leaves a line in the log. *)
Definition stepA : Action unit :=
  fun ctx st => logger_Error None "A ran" ;;; ret (None, None).
Definition stepB : Action unit :=
  fun ctx st => logger_Error None "B ran" ;;; ret (Some StopAndForget, None).
Definition stepC : Action unit :=
  fun ctx st => logger_Error None "C ran" ;;; ret (Some StopWithRequeue, None).

(** A step that would leave a line in the log if it ran. *)
Definition tracedStep (name : string) : Action unit :=
  fun ctx st => logger_Error None name ;;; ret (None, None).

Definition tracedSteps : iprange.Steps unit :=
  iprange.mkSteps unit
    (tracedStep "addFinalizer") (tracedStep "preventCidrEdit")
    (tracedStep "splitRangeByZones")
    (tracedStep "ensureShootZonesAndRangeSubnetsMatch")
    (tracedStep "loadVpc") (tracedStep "checkCidrOverlap")
    (tracedStep "checkCidrBlockStatus") (tracedStep "extendVpcAddressSpace")
    (tracedStep "loadSubnets") (tracedStep "findCloudResourceSubnets")
    (tracedStep "checkSubnetOverlap") (tracedStep "createSubnets")
    (tracedStep "updateSuccessStatus")
    (fun ctx st => ret (Some StopAndForget, None))
    (fun st w => false)
    (tracedStep "removeReadyCondition") (tracedStep "deleteSubnets")
    (tracedStep "waitSubnetsDeleted") (tracedStep "disassociateVpcAddressSpace")
    (tracedStep "waitCidrBlockDisassociated") (tracedStep "removeFinalizer").

Definition failingFactory : iprange.StateFactory unit unit :=
  iprange.mkStateFactory unit unit
    (fun ctx st => ret (tt, Some (errorString "no aws client"))).

(** ** More example inputs *)

(** A wrapper that adds context to the error it is given. *)
Definition wrapStatusError : option error -> M (option error) :=
  fun err => ret (match err with
                  | Some e => Some (wrapError "updating status: " e)
                  | None => None
                  end).

(** Hooks that let the pipeline go on with the context they were given. *)
Definition continueOnError : Context -> option error -> M Result :=
  fun ctx err => ret (None, Some ctx).
Definition continueOnSuccess : Context -> M Result :=
  fun ctx => ret (None, Some ctx).

Definition builderWrapped : UpdateStatusBuilder :=
  FailedError (Some (errorString "give up"))
    (UpdateErrorWrapper (Some wrapStatusError) builderReady).

Definition builderHooked : UpdateStatusBuilder :=
  OnUpdateSuccess (Some continueOnSuccess)
    (OnUpdateError (Some continueOnError) builderReady).

(** A condition that carries its own transition time. *)
Definition condReadyAt70 : Condition :=
  mkCondition "Ready" "False" 2 70 "Deleting" "going away".

(** A condition of the status [condReadyOld] has, with news otherwise. *)
Definition condReadyStill : Condition :=
  mkCondition "Ready" "False" 2 0 "Waiting" "still not yet".

(** A builder that keeps Ready and Overlap and sets Ready. *)
Definition builderKeepBoth : UpdateStatusBuilder :=
  RemoveAllConditionsExcept ["Overlap"] builderKeepReady.

(** A builder that only keeps B, and one that only sets a condition
    carrying its own transition time. *)
Definition builderKeepB : UpdateStatusBuilder :=
  RemoveAllConditionsExcept ["B"] (UpdateStatus obj0).
Definition builderReadyAt70 : UpdateStatusBuilder :=
  SetCondition condReadyAt70 (UpdateStatus obj0).

(** The steps [New] hands to the two [ComposeActions] calls, as lists. *)
Definition nonDeleteActions {AwsState} (steps : iprange.Steps AwsState)
  : list (Action AwsState) :=
  [ iprange.addFinalizer _ steps;
    iprange.preventCidrEdit _ steps;
    iprange.splitRangeByZones _ steps;
    iprange.ensureShootZonesAndRangeSubnetsMatch _ steps;
    iprange.loadVpc _ steps;
    iprange.checkCidrOverlap _ steps;
    iprange.checkCidrBlockStatus _ steps;
    iprange.extendVpcAddressSpace _ steps;
    iprange.loadSubnets _ steps;
    iprange.findCloudResourceSubnets _ steps;
    iprange.checkSubnetOverlap _ steps;
    iprange.createSubnets _ steps;
    iprange.updateSuccessStatus _ steps;
    iprange.StopAndForgetAction _ steps ].

Definition deleteActions {AwsState} (steps : iprange.Steps AwsState)
  : list (Action AwsState) :=
  [ iprange.removeReadyCondition _ steps;
    iprange.loadVpc _ steps;
    iprange.loadSubnets _ steps;
    iprange.findCloudResourceSubnets _ steps;
    iprange.deleteSubnets _ steps;
    iprange.waitSubnetsDeleted _ steps;
    iprange.disassociateVpcAddressSpace _ steps;
    iprange.waitCidrBlockDisassociated _ steps;
    iprange.removeFinalizer _ steps ].

(** A factory that succeeds, and steps for an object that is being
    deleted whose subnets are not gone yet: every step leaves a line in
    the log, [waitSubnetsDeleted] asks for a requeue. *)
Definition okFactory : iprange.StateFactory unit unit :=
  iprange.mkStateFactory unit unit (fun ctx st => ret (tt, None)).

Definition deletingSteps : iprange.Steps unit :=
  iprange.mkSteps unit
    (tracedStep "addFinalizer") (tracedStep "preventCidrEdit")
    (tracedStep "splitRangeByZones")
    (tracedStep "ensureShootZonesAndRangeSubnetsMatch")
    (tracedStep "loadVpc") (tracedStep "checkCidrOverlap")
    (tracedStep "checkCidrBlockStatus") (tracedStep "extendVpcAddressSpace")
    (tracedStep "loadSubnets") (tracedStep "findCloudResourceSubnets")
    (tracedStep "checkSubnetOverlap") (tracedStep "createSubnets")
    (tracedStep "updateSuccessStatus")
    (fun ctx st => ret (Some StopAndForget, None))
    (fun st w => true)
    (tracedStep "removeReadyCondition") (tracedStep "deleteSubnets")
    (fun ctx st => logger_Error None "waitSubnetsDeleted" ;;;
                   ret (Some StopWithRequeue, None))
    (tracedStep "disassociateVpcAddressSpace")
    (tracedStep "waitCidrBlockDisassociated") (tracedStep "removeFinalizer").

(** * Properties *)

(** ** Running the monad *)

Lemma setConditions_same (w : World) : setConditions (conditions w) w = w.
Proof. by destruct w. Qed.

Lemma setConditions_twice (a b : list Condition) (w : World) :
  setConditions a (setConditions b w) = setConditions a w.
Proof. reflexivity. Qed.

Lemma bind_run {A B} (m : M A) (k : A -> M B) (w : World) :
  bind m k w = k (m w).1 (m w).2.
Proof. unfold bind. by destruct (m w). Qed.

(** ** The removal loop is one filter *)

Lemma foldl_snoc_filter {A} (P : A -> Prop) `{!∀ x, Decision (P x)}
    (l acc : list A) :
  foldl (fun acc x => if decide (P x) then acc ++ [x] else acc) acc l
  = acc ++ filter P l.
Proof.
  revert acc. induction l as [|x l IH]; intros acc; simpl.
  - by rewrite app_nil_r.
  - rewrite IH, filter_cons. destruct (decide (P x)); [|done].
    by rewrite <- app_assoc.
Qed.

Lemma filter_ext_elem {A} (P Q : A -> Prop)
    `{!∀ x, Decision (P x)} `{!∀ x, Decision (Q x)} (l : list A) :
  (∀ x, x ∈ l -> (P x <-> Q x)) -> filter P l = filter Q l.
Proof.
  induction l as [|x l IH]; intros Hext; [done|].
  rewrite !filter_cons.
  assert (P x <-> Q x) as Hx by (apply Hext; left).
  assert (filter P l = filter Q l) as ->
    by (apply IH; intros y Hy; apply Hext; by right).
  destruct (decide (P x)), (decide (Q x)); tauto.
Qed.

Lemma filter_all {A} (P : A -> Prop) `{!∀ x, Decision (P x)} (l : list A) :
  (∀ x, x ∈ l -> P x) -> filter P l = l.
Proof.
  induction l as [|x l IH]; intros Hall; [done|].
  rewrite filter_cons, decide_True by (apply Hall; left).
  f_equal. apply IH. intros y Hy. apply Hall. by right.
Qed.

Lemma RemoveStatusCondition_run (t : string) (w : World) :
  (meta.RemoveStatusCondition t w).2
  = setConditions (removeType t (conditions w)) w.
Proof.
  unfold meta.RemoveStatusCondition, loadConditions, storeConditions, bind, ret.
  simpl. destruct (decide _) as [Hlen|Hlen]; simpl.
  - apply nil_length_inv in Hlen. rewrite Hlen. unfold removeType.
    rewrite filter_nil, <- Hlen. by rewrite setConditions_same.
  - by rewrite (foldl_snoc_filter (fun c => Type_ c ≠ t)).
Qed.

Lemma removeLoop_run (ts : list string) (w : World) :
  removeLoop ts w
  = (tt, setConditions (foldl (fun cs t => removeType t cs) (conditions w) ts) w).
Proof.
  revert w. induction ts as [|t ts IH]; intros w; simpl.
  - unfold removeLoop; simpl. unfold ret. by rewrite setConditions_same.
  - unfold removeLoop in *; simpl. rewrite bind_run, bind_run. simpl.
    rewrite IH, RemoveStatusCondition_run. reflexivity.
Qed.

Lemma removeTypes_filter (ts : list string) (cs : list Condition) :
  foldl (fun cs t => removeType t cs) cs ts
  = filter (fun c => Type_ c ∉ ts) cs.
Proof.
  revert cs. induction ts as [|t ts IH]; intros cs; simpl.
  - symmetry. apply filter_all. intros x _. apply not_elem_of_nil.
  - rewrite IH. unfold removeType. rewrite list_filter_filter.
    apply filter_ext_elem. intros x _. rewrite not_elem_of_cons. tauto.
Qed.

Lemma conditionsToRemove_types (keep : gset string) (cs : list Condition) :
  conditionsToRemove keep cs = Type_ <$> filter (fun c => Type_ c ∉ keep) cs.
Proof.
  unfold conditionsToRemove.
  assert (forall acc,
    foldl (fun acc c => if decide (Type_ c ∈ keep) then acc else acc ++ [Type_ c])
          acc cs
    = acc ++ (Type_ <$> filter (fun c => Type_ c ∉ keep) cs)) as H.
  { induction cs as [|c cs IH]; intros acc; simpl.
    - by rewrite app_nil_r.
    - rewrite IH, filter_cons.
      destruct (decide (Type_ c ∈ keep)) as [Hin|Hnin].
      + rewrite decide_False; [done|]. intros Hn. by apply Hn.
      + rewrite decide_True by done. by rewrite fmap_cons, <- app_assoc. }
  by rewrite H.
Qed.

Lemma removal_keepOnly (keep : gset string) (cs : list Condition) :
  foldl (fun cs t => removeType t cs) cs (conditionsToRemove keep cs)
  = keepOnly keep cs.
Proof.
  rewrite removeTypes_filter, conditionsToRemove_types. unfold keepOnly.
  apply filter_ext_elem. intros c Hc. split.
  - intros Hn. destruct (decide (Type_ c ∈ keep)) as [|Hk]; [done|].
    exfalso. apply Hn. apply list_elem_of_fmap. exists c. split; [done|].
    apply list_elem_of_filter. done.
  - intros Hk Hin. apply list_elem_of_fmap in Hin as (c' & Heq & Hc').
    apply list_elem_of_filter in Hc' as [Hnk _]. apply Hnk. by rewrite <- Heq.
Qed.

(** ** [SetStatusCondition] is an upsert by type key *)

Lemma conditionOf_nil (t : string) : conditionOf [] t = None.
Proof. reflexivity. Qed.

Lemma conditionOf_cons (c : Condition) (cs : list Condition) (t : string) :
  conditionOf (c :: cs) t
  = if decide (Type_ c = t) then Some c else conditionOf cs t.
Proof.
  unfold conditionOf. simpl. destruct (decide (Type_ c = t)); [done|].
  by destruct (meta.FindStatusCondition cs t).
Qed.

Lemma conditionOf_Type (cs : list Condition) (t : string) (c : Condition) :
  conditionOf cs t = Some c -> Type_ c = t /\ c ∈ cs.
Proof.
  induction cs as [|c' cs IH]; [done|].
  rewrite conditionOf_cons. destruct (decide (Type_ c' = t)).
  - intros [= <-]. split; [done|left].
  - intros H. destruct (IH H). split; [done|by right].
Qed.

Lemma conditionOf_None (cs : list Condition) (t : string) :
  conditionOf cs t = None <-> t ∉ (Type_ <$> cs).
Proof.
  induction cs as [|c cs IH].
  - split; [intros _; apply not_elem_of_nil|done].
  - rewrite conditionOf_cons, fmap_cons, not_elem_of_cons.
    destruct (decide (Type_ c = t)) as [->|Hne].
    + split; [done|]. intros [? _]. done.
    + rewrite IH. split; [intros ?; split; [congruence|done]|tauto].
Qed.

Lemma Find_None_conditionOf (cs : list Condition) (t : string) :
  meta.FindStatusCondition cs t = None <-> conditionOf cs t = None.
Proof.
  induction cs as [|c cs IH]; [done|].
  rewrite conditionOf_cons. simpl.
  destruct (decide (Type_ c = t)); [done|].
  rewrite <- IH. by destruct (meta.FindStatusCondition cs t).
Qed.

Lemma Find_upsert (now : Time) (newCondition : Condition) (cs : list Condition) :
  match meta.FindStatusCondition cs (Type_ newCondition) with
  | None => upsert now newCondition cs = cs ++ [stamped now newCondition]
  | Some i => exists existing, cs !! i = Some existing /\
      upsert now newCondition cs = <[i := updated now existing newCondition]> cs
  end.
Proof.
  induction cs as [|c cs IH]; simpl; [done|].
  destruct (decide (Type_ c = Type_ newCondition)); simpl.
  - by exists c.
  - destruct (meta.FindStatusCondition cs (Type_ newCondition)); simpl.
    + destruct IH as (e & He & ->). by exists e.
    + by rewrite IH.
Qed.

Lemma updateExisting_run (existing newCondition : Condition) (w : World) :
  (meta.updateExisting existing newCondition w).1.1
    = updated (clock w (ticks w)) existing newCondition
  /\ sameButTicks w (meta.updateExisting existing newCondition w).2.
Proof.
  unfold meta.updateExisting, updated, bind, ret, time_Now, sameButTicks.
  destruct existing as [ty st og lt re me], newCondition as [ty' st' og' lt' re' me'].
  simpl.
  destruct (decide (st ≠ st')); simpl;
    [destruct (IsZero lt'); simpl|];
    repeat (case_decide; simpl);
    (split; [|done]);
    unfold withObservedGeneration, withMessage, withReason,
      withLastTransitionTime, withStatus in *; simpl in *;
    repeat match goal with
           | H : ¬ (_ ≠ _) |- _ => apply dec_stable in H
           end; congruence.
Qed.

Lemma SetStatusCondition_run (newCondition : Condition) (w : World) :
  let w' := (meta.SetStatusCondition newCondition w).2 in
  conditions w' = upsert (clock w (ticks w)) newCondition (conditions w)
  /\ clock w' = clock w /\ logged w' = logged w.
Proof.
  unfold meta.SetStatusCondition. rewrite bind_run. simpl.
  pose proof (Find_upsert (clock w (ticks w)) newCondition (conditions w)) as HF.
  destruct (meta.FindStatusCondition (conditions w) (Type_ newCondition)) as [i|].
  - destruct HF as (e & He & ->). rewrite He.
    rewrite bind_run, bind_run. simpl.
    destruct (updateExisting_run e newCondition w) as (-> & Hc & Hk & Hl).
    done.
  - rewrite HF. unfold stamped, bind, ret, time_Now, storeConditions.
    by destruct (IsZero (LastTransitionTime newCondition)).
Qed.

Lemma stamped_Type (now : Time) (c : Condition) : Type_ (stamped now c) = Type_ c.
Proof. unfold stamped. by destruct (IsZero _). Qed.

Lemma stamped_stripTime (now : Time) (c : Condition) :
  stripTime (stamped now c) = stripTime c.
Proof. unfold stamped. by destruct (IsZero _). Qed.

Lemma updated_stripTime (now : Time) (e c : Condition) :
  Type_ e = Type_ c -> stripTime (updated now e c) = stripTime c.
Proof.
  intros Ht. unfold stripTime, updated, withLastTransitionTime. simpl.
  by rewrite Ht.
Qed.

Lemma upsert_types (now : Time) (c : Condition) (cs : list Condition) :
  Type_ <$> upsert now c cs
  = if decide (Type_ c ∈ Type_ <$> cs) then Type_ <$> cs
    else (Type_ <$> cs) ++ [Type_ c].
Proof.
  induction cs as [|c' cs IH].
  - cbn [upsert]. rewrite fmap_nil, decide_False by apply not_elem_of_nil.
    rewrite fmap_cons. by rewrite stamped_Type.
  - cbn [upsert]. rewrite (fmap_cons _ c' cs).
    destruct (decide (Type_ c' = Type_ c)) as [Heq|Hne].
    + rewrite fmap_cons. rewrite decide_True; [done|]. rewrite Heq. left.
    + rewrite fmap_cons, IH.
      destruct (decide (Type_ c ∈ Type_ <$> cs)) as [Hin|Hnin].
      * rewrite decide_True; [done|by right].
      * rewrite decide_False; [done|].
        rewrite not_elem_of_cons. split; [congruence|done].
Qed.

Lemma upsert_NoDup (now : Time) (c : Condition) (cs : list Condition) :
  NoDup (Type_ <$> cs) -> NoDup (Type_ <$> upsert now c cs).
Proof.
  intros Hnd. rewrite upsert_types.
  destruct (decide (Type_ c ∈ Type_ <$> cs)) as [|Hnin]; [done|].
  apply NoDup_app. split; [done|]. split.
  - intros x Hx Hx'. apply list_elem_of_singleton in Hx'. by subst.
  - apply NoDup_singleton.
Qed.

Lemma conditionOf_upsert_same (now : Time) (c : Condition) (cs : list Condition) :
  stripTime <$> conditionOf (upsert now c cs) (Type_ c) = Some (stripTime c).
Proof.
  induction cs as [|c' cs IH]; simpl.
  - rewrite conditionOf_cons, decide_True by apply stamped_Type.
    simpl. by rewrite stamped_stripTime.
  - destruct (decide (Type_ c' = Type_ c)) as [Heq|Hne].
    + rewrite conditionOf_cons, decide_True by done.
      simpl. by rewrite updated_stripTime.
    + by rewrite conditionOf_cons, decide_False.
Qed.

Lemma conditionOf_upsert_other (now : Time) (c : Condition)
    (cs : list Condition) (t : string) :
  t ≠ Type_ c -> conditionOf (upsert now c cs) t = conditionOf cs t.
Proof.
  intros Hne. induction cs as [|c' cs IH]; simpl.
  - rewrite conditionOf_cons, decide_False; [done|].
    rewrite stamped_Type. congruence.
  - destruct (decide (Type_ c' = Type_ c)) as [Heq|Hne'].
    + rewrite !conditionOf_cons.
      rewrite !decide_False; [done|congruence|simpl; congruence].
    + rewrite !conditionOf_cons. by rewrite IH.
Qed.

Lemma conditionOf_keepOnly (keep : gset string) (cs : list Condition) (t : string) :
  conditionOf (keepOnly keep cs) t
  = if decide (t ∈ keep) then conditionOf cs t else None.
Proof.
  unfold keepOnly. induction cs as [|c cs IH].
  - by destruct (decide (t ∈ keep)).
  - rewrite filter_cons. destruct (decide (Type_ c ∈ keep)) as [Hin|Hnin].
    + rewrite !conditionOf_cons, IH.
      destruct (decide (Type_ c = t)) as [<-|]; [|done].
      by rewrite decide_True.
    + rewrite IH, conditionOf_cons.
      destruct (decide (t ∈ keep)) as [Hk|]; [|done].
      rewrite decide_False; [done|]. intros Heq. by subst t.
Qed.

Lemma keepOnly_NoDup (keep : gset string) (cs : list Condition) :
  NoDup (Type_ <$> cs) -> NoDup (Type_ <$> keepOnly keep cs).
Proof.
  unfold keepOnly. induction cs as [|c cs IH]; [done|].
  rewrite fmap_cons, NoDup_cons. intros [Hnin Hnd].
  rewrite filter_cons. destruct (decide (Type_ c ∈ keep)); [|by apply IH].
  rewrite fmap_cons, NoDup_cons. split; [|by apply IH].
  intros Hin. apply Hnin.
  apply list_elem_of_fmap in Hin as (c' & -> & Hc').
  apply list_elem_of_filter in Hc' as [_ Hc'].
  apply list_elem_of_fmap. by exists c'.
Qed.

(** ** The two mutation loops of [Run] *)

Lemma setLoop_cons (c : Condition) (l : list Condition) (w : World) :
  setLoop (c :: l) w = setLoop l (meta.SetStatusCondition c w).2.
Proof. unfold setLoop. simpl. by rewrite !bind_run. Qed.

(** Any property of the slice that every upsert preserves survives the
    second loop. *)
Lemma setLoop_preserves (P : list Condition -> Prop) (l : list Condition) :
  (forall now c cs, c ∈ l -> P cs -> P (upsert now c cs)) ->
  forall w, P (conditions w) -> P (conditions (setLoop l w).2).
Proof.
  induction l as [|c l IH]; intros Hstep w HP; [done|].
  rewrite setLoop_cons. apply IH.
  - intros now c' cs Hc'. apply Hstep. by right.
  - destruct (SetStatusCondition_run c w) as (-> & _). apply Hstep; [left|done].
Qed.

Lemma setLoop_frame (l : list Condition) (w : World) :
  clock (setLoop l w).2 = clock w /\ logged (setLoop l w).2 = logged w.
Proof.
  revert w. induction l as [|c l IH]; intros w; [done|].
  rewrite setLoop_cons. destruct (IH (meta.SetStatusCondition c w).2) as [-> ->].
  by destruct (SetStatusCondition_run c w) as (_ & -> & ->).
Qed.


Lemma setLoop_conditionOf (l : list Condition) (w : World) (t : string) :
  stripTime <$> conditionOf (conditions (setLoop l w).2) t
  = match lastSet l t with
    | Some c => Some (stripTime c)
    | None => stripTime <$> conditionOf (conditions w) t
    end.
Proof.
  revert w. induction l as [|c l IH]; intros w; [done|].
  rewrite setLoop_cons, IH. unfold lastSet in *. rewrite filter_cons.
  destruct (SetStatusCondition_run c w) as (-> & _).
  destruct (decide (Type_ c = t)) as [<-|Hne].
  - rewrite last_cons. destruct (last _); [done|].
    apply conditionOf_upsert_same.
  - destruct (last _); [done|]. by rewrite conditionOf_upsert_other.
Qed.

Lemma applyConditionChanges_run (b : UpdateStatusBuilder) (w : World) :
  applyConditionChanges b w
  = setLoop (conditionsToSet b)
      (if doRemoveConditions b
       then setConditions (keepOnly (conditionsToKeep b) (conditions w)) w
       else w).
Proof.
  unfold applyConditionChanges. rewrite bind_run.
  destruct (doRemoveConditions b); [|done].
  rewrite bind_run. unfold loadConditions at 1 2. simpl.
  by rewrite removeLoop_run, removal_keepOnly.
Qed.

(** ** The shape of [Run] *)

Lemma Run_unfold (b : UpdateStatusBuilder) (ctx : Context) (st : State) (w : World) :
  Run b ctx st w
  = persistAndReport (setDefaults b) ctx st
      (applyConditionChanges (setDefaults b) w).2.
Proof.
  unfold Run, applyConditionChanges, persistAndReport, removeLoop, setLoop.
  rewrite !bind_run. reflexivity.
Qed.

Lemma setDefaults_fields (b : UpdateStatusBuilder) :
  doRemoveConditions (setDefaults b) = true /\
  is_Some (updateErrorWrapper (setDefaults b)) /\
  is_Some (onUpdateError (setDefaults b)) /\
  is_Some (onUpdateSuccess (setDefaults b)) /\
  is_Some (failedError (setDefaults b)) /\
  is_Some (successError (setDefaults b)).
Proof.
  unfold setDefaults; simpl.
  destruct (updateErrorWrapper b), (onUpdateError b), (onUpdateSuccess b),
    (failedError b), (successError b); repeat split; eauto.
Qed.

Lemma setDefaults_idem (b : UpdateStatusBuilder) :
  setDefaults (setDefaults b) = setDefaults b.
Proof.
  unfold setDefaults; simpl.
  destruct (updateErrorWrapper b), (onUpdateError b), (onUpdateSuccess b),
    (failedError b), (successError b); reflexivity.
Qed.

Lemma Run_builder (b : UpdateStatusBuilder) (ctx : Context) (st : State) (w : World) :
  (Run b ctx st w).1.1 = setDefaults b.
Proof.
  rewrite Run_unfold. unfold persistAndReport. rewrite bind_run.
  destruct (UpdateObjStatus st ctx _).1; rewrite !bind_run; reflexivity.
Qed.

Lemma callUpdateErrorWrapper_keeps (b : UpdateStatusBuilder) (e : option error) :
  hooksKeepConditions b -> keepsConditions (callUpdateErrorWrapper (setDefaults b) e).
Proof.
  intros (Hw & _ & _) w. unfold callUpdateErrorWrapper, setDefaults; simpl.
  destruct (updateErrorWrapper b) as [f|] eqn:Hf; [|done].
  by apply (Hw f).
Qed.

Lemma callOnUpdateError_keeps (b : UpdateStatusBuilder) (ctx : Context)
    (e : option error) :
  hooksKeepConditions b -> keepsConditions (callOnUpdateError (setDefaults b) ctx e).
Proof.
  intros (_ & He & _) w. unfold callOnUpdateError, setDefaults; simpl.
  destruct (onUpdateError b) as [[f|]|] eqn:Hf; [|done|done].
  by apply (He f).
Qed.

Lemma callOnUpdateSuccess_keeps (b : UpdateStatusBuilder) (ctx : Context) :
  hooksKeepConditions b -> keepsConditions (callOnUpdateSuccess (setDefaults b) ctx).
Proof.
  intros (_ & _ & Hs) w. unfold callOnUpdateSuccess, setDefaults; simpl.
  destruct (onUpdateSuccess b) as [[f|]|] eqn:Hf; [|done|done].
  by apply (Hs f).
Qed.

Lemma persistAndReport_keeps (b : UpdateStatusBuilder) (ctx : Context) (st : State) :
  stateKeepsConditions st -> hooksKeepConditions b ->
  keepsConditions (persistAndReport (setDefaults b) ctx st).
Proof.
  intros Hst Hb w. unfold persistAndReport. rewrite bind_run.
  destruct (UpdateObjStatus st ctx w).1.
  - rewrite !bind_run. simpl.
    rewrite callOnUpdateError_keeps, callUpdateErrorWrapper_keeps by done.
    apply Hst.
  - rewrite !bind_run. simpl. rewrite callOnUpdateSuccess_keeps by done.
    apply Hst.
Qed.

(** The slice [Run] leaves is the slice its two loops produce. *)
Lemma Run_conditions (b : UpdateStatusBuilder) (ctx : Context) (st : State) (w : World) :
  stateKeepsConditions st -> hooksKeepConditions b ->
  conditions (Run b ctx st w).2
  = conditions (setLoop (conditionsToSet b)
                  (setConditions (keepOnly (conditionsToKeep b) (conditions w)) w)).2.
Proof.
  intros Hst Hb. rewrite Run_unfold, persistAndReport_keeps by done.
  by rewrite applyConditionChanges_run.
Qed.

Lemma hooksKeepConditions_setDefaults (b : UpdateStatusBuilder) :
  hooksKeepConditions b -> hooksKeepConditions (setDefaults b).
Proof.
  intros (Hw & He & Hs). unfold hooksKeepConditions, setDefaults; simpl.
  repeat split.
  - intros f Hf e. destruct (updateErrorWrapper b) as [g|] eqn:Hg.
    + injection Hf as <-. by apply (Hw g).
    + injection Hf as <-. done.
  - intros f Hf. destruct (onUpdateError b) as [h|] eqn:Hh; [|done].
    injection Hf as ->. by apply He.
  - intros f Hf. destruct (onUpdateSuccess b) as [h|] eqn:Hh; [|done].
    injection Hf as ->. by apply Hs.
Qed.

Lemma removeStale_keepOnly (keep : gset string) (cs : list Condition) :
  removeStale keep cs = keepOnly keep cs.
Proof.
  unfold removeStale, keepOnly. apply filter_ext_elem. intros c Hc.
  assert (Type_ c ∈ (list_to_set (Type_ <$> cs) : gset string)) as Hp.
  { apply elem_of_list_to_set, list_elem_of_fmap. by exists c. }
  rewrite elem_of_difference. split.
  - intros Hn. destruct (decide (Type_ c ∈ keep)); [done|]. by destruct Hn.
  - intros Hk [_ Hn]. done.
Qed.

(** [Run] never leaves two entries under one type key if it did not find
    two. *)
Lemma Run_NoDup (b : UpdateStatusBuilder) (ctx : Context) (st : State) (w : World) :
  NoDup (Type_ <$> conditions w) ->
  stateKeepsConditions st -> hooksKeepConditions b ->
  NoDup (Type_ <$> conditions (Run b ctx st w).2).
Proof.
  intros Hnd Hst Hb. rewrite Run_conditions by assumption.
  apply (setLoop_preserves (fun cs => NoDup (Type_ <$> cs))).
  - intros now c cs _. apply upsert_NoDup.
  - simpl. by apply keepOnly_NoDup.
Qed.

(** The slice a second [Run] leaves agrees with the slice the first left,
    key by key, on everything but the transition time. *)
Lemma second_Run_conditionOf
    (b : UpdateStatusBuilder) (ctx : Context) (st : State) (w : World)
    (t : string) :
  stateKeepsConditions st -> hooksKeepConditions b ->
  stripTime <$> conditionOf
     (conditions (Run (setDefaults b) ctx st (Run b ctx st w).2).2) t
  = stripTime <$> conditionOf (conditions (Run b ctx st w).2) t.
Proof.
  intros Hst Hb.
  rewrite (Run_conditions (setDefaults b))
    by (assumption || by apply hooksKeepConditions_setDefaults).
  rewrite (Run_conditions b) by assumption.
  change (conditionsToSet (setDefaults b)) with (conditionsToSet b).
  change (conditionsToKeep (setDefaults b)) with (conditionsToKeep b).
  rewrite !setLoop_conditionOf.
  destruct (lastSet (conditionsToSet b) t) eqn:Hlast; [done|]. simpl.
  rewrite !conditionOf_keepOnly.
  destruct (decide (t ∈ conditionsToKeep b)); [|done].
  rewrite setLoop_conditionOf, Hlast. simpl.
  by rewrite conditionOf_keepOnly, decide_True.
Qed.

(** ** The example inputs meet the frame conditions *)

Lemma okState_keeps : stateKeepsConditions okState.
Proof. intros ctx w. reflexivity. Defined.

Lemma failingState_keeps : stateKeepsConditions failingState.
Proof. intros ctx w. reflexivity. Defined.

Lemma noHooks_keep (b : UpdateStatusBuilder) :
  updateErrorWrapper b = None -> onUpdateError b = None ->
  onUpdateSuccess b = None -> hooksKeepConditions b.
Proof.
  intros Hw He Hs. unfold hooksKeepConditions. rewrite Hw, He, Hs.
  repeat split; intros f Hf; discriminate Hf.
Defined.

(** ** The status-update builder *)

(** C1 (what the code does in place of the keep-all policy): [setDefaults]
    sets [doRemoveConditions] back to [true] at the start of [Run], so a
    builder configured with [KeepAllConditions] alone (empty keep-list,
    nothing to set) removes every condition of the object: the slice is
    empty after [Run], whatever it held. *)
Theorem C1_KeepAllConditions_is_overridden
    (o : ObjWithConditions) (ctx : Context) (st : State) (w : World) :
  stateKeepsConditions st ->
  doRemoveConditions (KeepAllConditions (UpdateStatus o)) = false /\
  conditions (Run (KeepAllConditions (UpdateStatus o)) ctx st w).2 = [].
Proof.
  intros Hst. split; [done|].
  rewrite Run_conditions; [|done|by apply noHooks_keep]. simpl.
  unfold keepOnly. induction (conditions w) as [|c cs IH]; [done|].
  rewrite filter_cons, decide_False; [done|]. apply not_elem_of_empty.
Qed.

Lemma C1_failing_input :
  stateKeepsConditions okState /\
  doRemoveConditions (KeepAllConditions (UpdateStatus obj0)) = false /\
  conditions (Run (KeepAllConditions (UpdateStatus obj0)) Background okState
                (world0 [condA; condB])).2 = [].
Proof.
  split; [exact okState_keeps|].
  exact (C1_KeepAllConditions_is_overridden obj0 Background okState
           (world0 [condA; condB]) okState_keeps).
Defined.

(** C2: with no hooks, no failure or success signal and no error wrapper
    configured, a persistence error [e] goes through the error wrapper
    once (the default one, which hands [e] back and changes nothing), [Run]
    returns stop-and-requeue with a nil context, and the only trace is one
    log line carrying [e]; when persistence returns nil, [Run] returns
    stop-and-forget with a nil context and changes nothing more. *)
Theorem C2_default_signals
    (b : UpdateStatusBuilder) (ctx : Context) (st : State) (w : World) :
  onUpdateError b = None -> onUpdateSuccess b = None ->
  failedError b = None -> successError b = None ->
  updateErrorWrapper b = None ->
  let persisted := UpdateObjStatus st ctx (applyConditionChanges (setDefaults b) w).2 in
  match persisted.1 with
  | Some e =>
      callUpdateErrorWrapper (setDefaults b) (Some e) persisted.2
        = (Some e, persisted.2) /\
      (Run b ctx st w).1.2 = (Some StopWithRequeue, None) /\
      (Run b ctx st w).2
        = (logger_Error (Some e) (defaultErrorLogMsg (obj b)) persisted.2).2
  | None =>
      (Run b ctx st w).1.2 = (Some StopAndForget, None) /\
      (Run b ctx st w).2 = persisted.2
  end.
Proof.
  intros He Hs Hf Hse Hw persisted. rewrite Run_unfold.
  unfold persistAndReport. rewrite bind_run. fold persisted.
  unfold callUpdateErrorWrapper, callOnUpdateError, callOnUpdateSuccess,
    LogErrorAndReturn, setDefaults at 2 3 4 5 6 7 8; simpl.
  rewrite He, Hs, Hf, Hse, Hw.
  destruct (persisted.1) as [e|]; repeat split; reflexivity.
Qed.

Lemma C2_default_signals_witness :
  (Run builderReady Background failingState (world0 [])).1.2
    = (Some StopWithRequeue, None) /\
  logged (Run builderReady Background failingState (world0 [])).2
    = [mkLogEntry (Some (errorString "conflict"))
         "Error updating status for *v1beta1.IpRange"] /\
  (Run builderReady Background okState (world0 [])).1.2
    = (Some StopAndForget, None).
Proof.
  pose proof (C2_default_signals builderReady Background failingState (world0 [])
                eq_refl eq_refl eq_refl eq_refl eq_refl) as Hfail.
  pose proof (C2_default_signals builderReady Background okState (world0 [])
                eq_refl eq_refl eq_refl eq_refl eq_refl) as Hok.
  vm_compute in Hfail, Hok.
  destruct Hfail as (_ & Hsig & Hworld). destruct Hok as (Hsig' & _).
  split; [exact Hsig|]. split; [|exact Hsig'].
  exact (f_equal logged Hworld).
Defined.



(** C5 as stated fails: with nothing in the keep-list, the second [Run]
    removes the Ready condition the first one appended and appends it
    anew, stamped with the later clock reading. *)
Lemma C5_second_Run_changes_transition_time :
  stateKeepsConditions okState /\ hooksKeepConditions builderReady /\
  let first := Run builderReady Background okState (world0 []) in
  let second := Run first.1.1 Background okState first.2 in
  conditions first.2 = [withLastTransitionTime 100 condReady] /\
  conditions second.2 = [withLastTransitionTime 101 condReady] /\
  conditions second.2 ≠ conditions first.2 /\
  conditionOf (conditions second.2) "Ready"
    ≠ conditionOf (conditions first.2) "Ready".
Proof.
  split; [exact okState_keeps|].
  split; [exact (noHooks_keep builderReady eq_refl eq_refl eq_refl)|].
  vm_compute. repeat split; discriminate.
Qed.

(** The order of the slice is not stable either, whatever the clock
    reads: a type that is set but not kept is removed and appended again,
    behind the kept ones. *)
Lemma second_Run_may_reorder :
  let b := SetCondition condB (SetCondition condA
             (RemoveAllConditionsExcept ["B"] (UpdateStatus obj0))) in
  let first := Run b Background okState (world0 []) in
  let second := Run first.1.1 Background okState first.2 in
  conditions first.2 = [condA; condB] /\ conditions second.2 = [condB; condA].
Proof. vm_compute. split; reflexivity. Qed.

(** C6: if the type keys of the object's conditions are pairwise distinct
    before [Run], they are pairwise distinct after it. *)
Theorem C6_type_keys_stay_unique
    (b : UpdateStatusBuilder) (ctx : Context) (st : State) (w : World) :
  NoDup (Type_ <$> conditions w) ->
  stateKeepsConditions st -> hooksKeepConditions b ->
  NoDup (Type_ <$> conditions (Run b ctx st w).2).
Proof. apply Run_NoDup. Qed.

Lemma C6_type_keys_stay_unique_witness :
  NoDup (Type_ <$> conditions (world0 [condReadyOld; condOverlap])) /\
  NoDup (Type_ <$> conditions
     (Run builderKeepReady Background okState (world0 [condReadyOld; condOverlap])).2).
Proof.
  assert (NoDup (Type_ <$> conditions (world0 [condReadyOld; condOverlap]))) as Hnd.
  { cbn. apply NoDup_cons. split; [|apply NoDup_singleton].
    rewrite list_elem_of_singleton. discriminate. }
  split; [exact Hnd|].
  exact (C6_type_keys_stay_unique builderKeepReady Background okState
           (world0 [condReadyOld; condOverlap]) Hnd okState_keeps
           (noHooks_keep builderKeepReady eq_refl eq_refl eq_refl)).
Defined.

(** C8: when the persistence call fails, the object's in-memory slice is
    still the one the removal and upsert loops produced; nothing is rolled
    back. *)
Theorem C8_no_rollback_on_persistence_failure
    (b : UpdateStatusBuilder) (ctx : Context) (st : State) (w : World)
    (e : error) :
  stateKeepsConditions st -> hooksKeepConditions b ->
  (UpdateObjStatus st ctx (applyConditionChanges (setDefaults b) w).2).1 = Some e ->
  conditions (Run b ctx st w).2
  = conditions (applyConditionChanges (setDefaults b) w).2.
Proof.
  intros Hst Hb _. by rewrite Run_unfold, persistAndReport_keeps.
Qed.

Lemma C8_no_rollback_witness :
  (UpdateObjStatus failingState Background
     (applyConditionChanges (setDefaults builderKeepReady)
        (world0 [condReadyOld; condOverlap])).2).1
    = Some (errorString "conflict") /\
  conditions (Run builderKeepReady Background failingState
                (world0 [condReadyOld; condOverlap])).2
  = [mkCondition "Ready" "True" 0 100 "Ready" "provisioned"].
Proof.
  split; [reflexivity|].
  rewrite (C8_no_rollback_on_persistence_failure builderKeepReady Background
             failingState (world0 [condReadyOld; condOverlap])
             (errorString "conflict") failingState_keeps
             (noHooks_keep builderKeepReady eq_refl eq_refl eq_refl) eq_refl).
  reflexivity.
Defined.

(** C9: the message given to [ErrorLogMessage] is overwritten by
    [setDefaults] at the start of [Run] with the generated default; two
    runs that differ only in that message have the same results, leave
    the same world and the same builder, and so does a run of the builder
    on which [ErrorLogMessage] was never called. *)
Theorem C9_ErrorLogMessage_has_no_effect
    (msg msg' : string) (b : UpdateStatusBuilder) (ctx : Context) (st : State)
    (w : World) :
  updateErrorLogMsg (setDefaults (ErrorLogMessage msg b))
    = defaultErrorLogMsg (obj b) /\
  Run (ErrorLogMessage msg b) ctx st w = Run (ErrorLogMessage msg' b) ctx st w /\
  Run (ErrorLogMessage msg b) ctx st w = Run b ctx st w.
Proof. repeat split; reflexivity. Qed.

(** The log line of a failed update carries the generated message, not
    the configured one. *)
Lemma ErrorLogMessage_is_not_logged :
  logged (Run (ErrorLogMessage "status update failed" builderReady)
            Background failingState (world0 [])).2
  = [mkLogEntry (Some (errorString "conflict"))
       "Error updating status for *v1beta1.IpRange"].
Proof. reflexivity. Qed.

(** ** The sequential composer *)

Lemma runActions_continues {S} (pre rest : list (Action S))
    (ctx : Context) (st : S) (w : World) (ctx1 : Context) (w1 : World) :
  continuesThrough pre ctx st w ctx1 w1 ->
  runActions (pre ++ rest) ctx st w = runActions rest ctx1 st w1.
Proof.
  induction 1 as [|a pre ctx st w nextCtx w1 ctx' w' Ha _ IH]; [done|].
  cbn [app runActions]. rewrite bind_run, Ha. simpl. exact IH.
Qed.

(** C7: the composed action runs its steps in the declared order; at the
    first step that returns a signal other than continue it returns that
    signal and the world is the one that step left, whatever steps follow
    (none of them runs); when every step returns continue, so does the
    composed action, after the last step. *)
Theorem C7_ComposeActions_short_circuits {S} (name : string) :
  (forall (pre post : list (Action S)) (a : Action S) ctx st w ctx1 w1
          signal nextCtx w2,
     continuesThrough pre ctx st w ctx1 w1 ->
     a ctx1 st w1 = ((Some signal, nextCtx), w2) ->
     (ComposeActions name (pre ++ a :: post) ctx st w).1.1 = Some signal /\
     (ComposeActions name (pre ++ a :: post) ctx st w).2 = w2) /\
  (forall (steps : list (Action S)) ctx st w ctx1 w1,
     continuesThrough steps ctx st w ctx1 w1 ->
     (ComposeActions name steps ctx st w).1.1 = None /\
     (ComposeActions name steps ctx st w).2 = w1).
Proof.
  split.
  - intros pre post a ctx st w ctx1 w1 signal nextCtx w2 Hpre Ha.
    unfold ComposeActions. rewrite (runActions_continues pre _ _ _ _ _ _ Hpre).
    cbn [runActions]. rewrite bind_run, Ha. done.
  - intros steps ctx st w ctx1 w1 Hall. unfold ComposeActions.
    rewrite <- (app_nil_r steps).
    rewrite (runActions_continues steps _ _ _ _ _ _ Hall). done.
Qed.

Lemma C7_ComposeActions_witness :
  continuesThrough [stepA] Background tt (world0 []) Background
    (logger_Error None "A ran" (world0 [])).2 /\
  (ComposeActions "demo" [stepA; stepB; stepC] Background tt (world0 [])).1.1
    = Some StopAndForget /\
  logged (ComposeActions "demo" [stepA; stepB; stepC] Background tt (world0 [])).2
    = [mkLogEntry None "A ran"; mkLogEntry None "B ran"] /\
  (ComposeActions "demo" [stepA] Background tt (world0 [])).1.1 = None.
Proof.
  assert (continuesThrough [stepA] Background tt (world0 []) Background
            (logger_Error None "A ran" (world0 [])).2) as HA.
  { eapply continuesThrough_cons; [reflexivity|]. apply continuesThrough_nil. }
  destruct (C7_ComposeActions_short_circuits (S:=unit) "demo") as [Hstop Hcont].
  destruct (Hstop [stepA] [stepC] stepB Background tt (world0 []) Background _
              StopAndForget None _ HA eq_refl) as [Hsig Hworld].
  destruct (Hcont [stepA] Background tt (world0 []) Background _ HA) as [Hsig' _].
  split; [exact HA|]. split; [exact Hsig|]. split; [|exact Hsig'].
  change ([stepA; stepB; stepC]) with ([stepA] ++ stepB :: [stepC]).
  rewrite Hworld. reflexivity.
Defined.

(** ** The IpRange entry point *)

(** C10: when [NewState] returns an error, the action [New] builds
    returns stop-and-forget with a nil context; the world is the one
    [NewState] left plus the one log line of the wrapped error, whatever
    the steps of the two pipelines are: none of them runs. *)
Theorem C10_New_state_creation_failure {St TypesState AwsState : Type}
    (assertTypesState : St -> option TypesState)
    (steps : iprange.Steps AwsState)
    (stateFactory : iprange.StateFactory TypesState AwsState)
    (ctx : Context) (st : St) (st' : TypesState) (w : World)
    (state : AwsState) (e : error) (w1 : World) :
  assertTypesState st = Some st' ->
  iprange.NewState stateFactory ctx st' w = ((state, Some e), w1) ->
  iprange.New assertTypesState steps stateFactory ctx st w
  = (Some (Some StopAndForget, None),
     (logger_Error
        (Some (wrapError "error creating new aws iprange state: " e))
        "Error" w1).2).
Proof.
  intros Hassert Hnew. unfold iprange.New. rewrite Hassert.
  rewrite bind_run, Hnew. reflexivity.
Qed.

Lemma C10_New_state_creation_failure_witness :
  iprange.New Some tracedSteps failingFactory Background tt (world0 [])
  = (Some (Some StopAndForget, None),
     mkWorld [] clock0 0
       [mkLogEntry
          (Some (wrapError "error creating new aws iprange state: "
                   (errorString "no aws client")))
          "Error"]).
Proof.
  exact (C10_New_state_creation_failure Some tracedSteps failingFactory
           Background tt tt (world0 []) tt (errorString "no aws client")
           (world0 []) eq_refl eq_refl).
Defined.


(** * Further properties of the status-update builder *)

(** ** The two ends of [Run] *)

Lemma Run_on_error (b : UpdateStatusBuilder) (ctx : Context) (st : State)
    (w : World) (e : error) (w2 : World) :
  UpdateObjStatus st ctx (applyConditionChanges (setDefaults b) w).2 = (Some e, w2) ->
  Run b ctx st w
  = (let wrapped := callUpdateErrorWrapper (setDefaults b) (Some e) w2 in
     let hooked := callOnUpdateError (setDefaults b) ctx wrapped.1 wrapped.2 in
     ((setDefaults b, hooked.1), hooked.2)).
Proof.
  intros Hp. rewrite Run_unfold. unfold persistAndReport.
  rewrite bind_run, Hp. simpl. rewrite !bind_run. reflexivity.
Qed.

Lemma Run_on_success (b : UpdateStatusBuilder) (ctx : Context) (st : State)
    (w : World) (w2 : World) :
  UpdateObjStatus st ctx (applyConditionChanges (setDefaults b) w).2 = (None, w2) ->
  Run b ctx st w
  = (let hooked := callOnUpdateSuccess (setDefaults b) ctx w2 in
     ((setDefaults b, hooked.1), hooked.2)).
Proof.
  intros Hp. rewrite Run_unfold. unfold persistAndReport.
  rewrite bind_run, Hp. simpl. rewrite !bind_run. reflexivity.
Qed.

Lemma callUpdateErrorWrapper_setDefaults (b : UpdateStatusBuilder)
    (err : option error) (w : World) :
  callUpdateErrorWrapper (setDefaults b) err w
  = match updateErrorWrapper b with
    | Some f => f err w
    | None => (err, w)
    end.
Proof.
  unfold callUpdateErrorWrapper, setDefaults; simpl.
  by destruct (updateErrorWrapper b).
Qed.

Lemma callOnUpdateError_default (b : UpdateStatusBuilder) (ctx : Context)
    (err : option error) :
  onUpdateError b = None ->
  callOnUpdateError (setDefaults b) ctx err
  = LogErrorAndReturn err (defaultErrorLogMsg (obj b))
      (Some (default StopWithRequeue (failedError b))) None.
Proof.
  intros Hh. unfold callOnUpdateError, setDefaults; simpl. rewrite Hh.
  by destruct (failedError b).
Qed.

Lemma callOnUpdateSuccess_default (b : UpdateStatusBuilder) (ctx : Context) :
  onUpdateSuccess b = None ->
  callOnUpdateSuccess (setDefaults b) ctx
  = ret (Some (default StopAndForget (successError b)), None).
Proof.
  intros Hh. unfold callOnUpdateSuccess, setDefaults; simpl. rewrite Hh.
  by destruct (successError b).
Qed.

(** X1: without an [OnUpdateError] hook, a failed status update makes
    [Run] hand the error to the configured wrapper (if any) once, log what
    the wrapper returned under the generated message, and return the
    signal given to [FailedError] (stop-with-requeue if none was) with a
    nil context; what the wrapper returns, nil included, does not change
    the signal. *)
Theorem X1_failure_path_default_hook
    (b : UpdateStatusBuilder) (ctx : Context) (st : State) (w : World)
    (e : error) (w2 : World) :
  onUpdateError b = None ->
  UpdateObjStatus st ctx (applyConditionChanges (setDefaults b) w).2 = (Some e, w2) ->
  let wrapped := match updateErrorWrapper b with
                 | Some f => f (Some e) w2
                 | None => (Some e, w2)
                 end in
  Run b ctx st w
  = ((setDefaults b,
      (Some (default StopWithRequeue (failedError b)), None)),
     (logger_Error wrapped.1 (defaultErrorLogMsg (obj b)) wrapped.2).2).
Proof.
  intros Hh Hp wrapped. rewrite (Run_on_error _ _ _ _ _ _ Hp).
  cbv zeta. rewrite callUpdateErrorWrapper_setDefaults. fold wrapped.
  rewrite (callOnUpdateError_default _ _ _ Hh).
  unfold LogErrorAndReturn. rewrite bind_run. reflexivity.
Qed.

Lemma X1_failure_path_witness :
  Run builderWrapped Background failingState (world0 [])
  = ((setDefaults builderWrapped, (Some (errorString "give up"), None)),
     mkWorld [withLastTransitionTime 100 condReady] clock0 1
       [mkLogEntry (Some (wrapError "updating status: " (errorString "conflict")))
          "Error updating status for *v1beta1.IpRange"]).
Proof.
  exact (X1_failure_path_default_hook builderWrapped Background failingState
           (world0 []) (errorString "conflict") _ eq_refl eq_refl).
Defined.

(** X2: without an [OnUpdateSuccess] hook, a successful status update
    makes [Run] return the signal given to [SuccessError]
    (stop-and-forget if none was) with a nil context and leave the world
    as the update left it: the error wrapper and the error hook are not
    called and nothing is logged. *)
Theorem X2_success_path_default_hook
    (b : UpdateStatusBuilder) (ctx : Context) (st : State) (w : World)
    (w2 : World) :
  onUpdateSuccess b = None ->
  UpdateObjStatus st ctx (applyConditionChanges (setDefaults b) w).2 = (None, w2) ->
  Run b ctx st w
  = ((setDefaults b, (Some (default StopAndForget (successError b)), None)), w2).
Proof.
  intros Hh Hp. rewrite (Run_on_success _ _ _ _ _ Hp).
  cbv zeta. by rewrite (callOnUpdateSuccess_default _ _ Hh).
Qed.

Lemma X2_success_path_witness :
  Run builderWrapped Background okState (world0 [])
  = ((setDefaults builderWrapped, (Some StopAndForget, None)),
     mkWorld [withLastTransitionTime 100 condReady] clock0 1 []).
Proof.
  exact (X2_success_path_default_hook builderWrapped Background okState
           (world0 []) _ eq_refl eq_refl).
Defined.

(** X3: once a hook is configured, the matching signal setter is dead:
    with an [OnUpdateError] hook, [FailedError] changes neither what [Run]
    returns nor the world it leaves, and likewise [SuccessError] with an
    [OnUpdateSuccess] hook. *)
Theorem X3_hooks_override_signals
    (b : UpdateStatusBuilder) (ctx : Context) (st : State) (w : World)
    (f : Context -> option error -> M Result) (g : Context -> M Result)
    (x y : option error) :
  onUpdateError b = Some (ErrorHookFunc f) ->
  onUpdateSuccess b = Some (SuccessHookFunc g) ->
  (Run (FailedError x (SuccessError y b)) ctx st w).1.2 = (Run b ctx st w).1.2 /\
  (Run (FailedError x (SuccessError y b)) ctx st w).2 = (Run b ctx st w).2.
Proof.
  intros Hf Hg. rewrite !Run_unfold.
  change (applyConditionChanges (setDefaults (FailedError x (SuccessError y b))))
    with (applyConditionChanges (setDefaults b)).
  unfold persistAndReport. rewrite !bind_run.
  destruct (UpdateObjStatus st ctx (applyConditionChanges (setDefaults b) w).2)
    as [[e|] w2]; simpl; rewrite !bind_run; simpl;
    unfold callOnUpdateError, callOnUpdateSuccess, callUpdateErrorWrapper;
    simpl; rewrite ?Hf, ?Hg; split; reflexivity.
Qed.

Lemma X3_hooks_override_signals_witness :
  (Run (FailedError (Some (errorString "give up"))
          (SuccessError (Some StopWithRequeue) builderHooked))
       Background failingState (world0 [])).1.2
  = (None, Some Background).
Proof.
  rewrite (proj1 (X3_hooks_override_signals builderHooked Background failingState
                    (world0 []) continueOnError continueOnSuccess
                    (Some (errorString "give up")) (Some StopWithRequeue)
                    eq_refl eq_refl)).
  reflexivity.
Defined.

(** X4: the defaults [Run] writes into the builder do not change what a
    later [Run] of the same builder does: run on the builder a first [Run]
    left behind, [Run] returns what it returns on the original builder, in
    every context, state and world. *)
Theorem X4_builder_can_be_run_again
    (b : UpdateStatusBuilder) (ctx0 ctx : Context) (st0 st : State)
    (w0 w : World) :
  Run (Run b ctx0 st0 w0).1.1 ctx st w = Run b ctx st w.
Proof.
  rewrite Run_builder, !Run_unfold. by rewrite setDefaults_idem.
Qed.

(** X5: the default error hook reads the failure signal from the builder
    when it is called, not when it was installed: a [FailedError] given to
    a builder that has already run (and had no [OnUpdateError] hook) is
    the signal the next failed [Run] returns. *)
Theorem X5_FailedError_after_Run_takes_effect
    (b : UpdateStatusBuilder) (ctx0 ctx : Context) (st0 st : State)
    (w0 w : World) (x e : error) (w2 : World) :
  onUpdateError b = None ->
  let b' := FailedError (Some x) (Run b ctx0 st0 w0).1.1 in
  UpdateObjStatus st ctx (applyConditionChanges (setDefaults b') w).2 = (Some e, w2) ->
  (Run b' ctx st w).1.2 = (Some x, None).
Proof.
  intros Hh b' Hp. rewrite (Run_on_error _ _ _ _ _ _ Hp).
  cbv zeta. subst b'. rewrite Run_builder.
  unfold callOnUpdateError at 1.
  assert (onUpdateError (setDefaults (FailedError (Some x) (setDefaults b)))
          = Some ErrorHookDefault) as ->
    by (unfold setDefaults, FailedError; simpl; by rewrite Hh).
  unfold LogErrorAndReturn. rewrite bind_run. reflexivity.
Qed.

Lemma X5_FailedError_after_Run_witness :
  (Run (FailedError (Some (errorString "give up"))
          (Run builderReady Background okState (world0 [])).1.1)
       Background failingState (world0 [])).1.2
  = (Some (errorString "give up"), None).
Proof.
  exact (X5_FailedError_after_Run_takes_effect builderReady Background Background
           okState failingState (world0 []) (world0 [])
           (errorString "give up") (errorString "conflict") _ eq_refl eq_refl).
Defined.

(** ** What [Run] leaves in the condition slice *)

Lemma lastSet_None_iff (l : list Condition) (t : string) :
  lastSet l t = None <-> t ∉ (Type_ <$> l).
Proof.
  unfold lastSet. induction l as [|c l IH].
  - split; [intros _; apply not_elem_of_nil|done].
  - rewrite filter_cons, fmap_cons, not_elem_of_cons.
    destruct (decide (Type_ c = t)) as [Heq|Hne].
    + rewrite last_cons. split.
      * by destruct (last _).
      * intros [Hne _]. by destruct Hne.
    + rewrite IH. split; [intros ?; split; [congruence|done]|tauto].
Qed.

Lemma setLoop_conditionOf_other (l : list Condition) (w : World) (t : string) :
  Forall (fun c => Type_ c ≠ t) l ->
  conditionOf (conditions (setLoop l w).2) t = conditionOf (conditions w) t.
Proof.
  intros Hl.
  apply (setLoop_preserves
           (fun cs => conditionOf cs t = conditionOf (conditions w) t)); [|done].
  intros now c cs Hc <-. apply conditionOf_upsert_other.
  rewrite Forall_forall in Hl. intros Heq. by apply (Hl c Hc).
Qed.

Lemma conditionOf_upsert_hit (now : Time) (c e : Condition) (cs : list Condition) :
  conditionOf cs (Type_ c) = Some e ->
  conditionOf (upsert now c cs) (Type_ c) = Some (updated now e c).
Proof.
  induction cs as [|c' cs IH]; [done|].
  rewrite conditionOf_cons. cbn [upsert].
  destruct (decide (Type_ c' = Type_ c)) as [Heq|Hne].
  - intros [= ->]. by rewrite conditionOf_cons, decide_True.
  - intros He. rewrite conditionOf_cons, decide_False by done. by apply IH.
Qed.

Lemma upsert_absent (now : Time) (c : Condition) (cs : list Condition) :
  Type_ c ∉ (Type_ <$> cs) -> upsert now c cs = cs ++ [stamped now c].
Proof.
  induction cs as [|c' cs IH]; [done|].
  rewrite fmap_cons, not_elem_of_cons. intros [Hne Hnin]. cbn [upsert].
  rewrite decide_False by congruence. by rewrite IH.
Qed.

Lemma keepOnly_types (keep : gset string) (cs : list Condition) (t : string) :
  t ∈ (Type_ <$> keepOnly keep cs) <-> t ∈ keep /\ t ∈ (Type_ <$> cs).
Proof.
  unfold keepOnly. rewrite !list_elem_of_fmap. split.
  - intros (c & -> & Hc). apply list_elem_of_filter in Hc as [Hk Hc].
    split; [done|by exists c].
  - intros (Hk & c & -> & Hc). exists c. split; [done|].
    by apply list_elem_of_filter.
Qed.

Lemma upsert_now_irrelevant (now now' : Time) (c : Condition) (cs : list Condition) :
  LastTransitionTime c ≠ 0 -> upsert now c cs = upsert now' c cs.
Proof.
  intros Hnz.
  assert (IsZero (LastTransitionTime c) = false) as Hz
    by (unfold IsZero; by apply bool_decide_eq_false).
  induction cs as [|c' cs IH]; cbn [upsert].
  - unfold stamped. by rewrite Hz.
  - destruct (decide (Type_ c' = Type_ c)); [|by rewrite IH].
    unfold updated. by rewrite Hz.
Qed.

Lemma setLoop_clock_irrelevant (l : list Condition) (w w' : World) :
  Forall (fun c => LastTransitionTime c ≠ 0) l ->
  conditions w' = conditions w ->
  conditions (setLoop l w').2 = conditions (setLoop l w).2.
Proof.
  intros Hl. revert w w'. induction Hl as [|c l Hc _ IH]; intros w w' Hcs; [done|].
  rewrite !setLoop_cons. apply IH.
  destruct (SetStatusCondition_run c w) as (-> & _).
  destruct (SetStatusCondition_run c w') as (-> & _).
  rewrite Hcs. by apply upsert_now_irrelevant.
Qed.

(** X6: the type keys on the object after [Run] are exactly the kept
    types that were on it before and the types of the conditions to set. *)
Theorem X6_type_keys_after_Run
    (b : UpdateStatusBuilder) (ctx : Context) (st : State) (w : World)
    (t : string) :
  stateKeepsConditions st -> hooksKeepConditions b ->
  t ∈ (Type_ <$> conditions (Run b ctx st w).2)
  <-> (t ∈ conditionsToKeep b /\ t ∈ (Type_ <$> conditions w))
      \/ t ∈ (Type_ <$> conditionsToSet b).
Proof.
  intros Hst Hb. rewrite Run_conditions by assumption.
  set (w0 := setConditions _ w).
  pose proof (setLoop_conditionOf (conditionsToSet b) w0 t) as Hv.
  pose proof (lastSet_None_iff (conditionsToSet b) t) as Hl.
  pose proof (conditionOf_None (conditions (setLoop (conditionsToSet b) w0).2) t) as Hn.
  pose proof (conditionOf_None (conditions w0) t) as Hn0.
  pose proof (keepOnly_types (conditionsToKeep b) (conditions w) t) as Hk.
  change (conditions w0) with (keepOnly (conditionsToKeep b) (conditions w)) in *.
  destruct (lastSet (conditionsToSet b) t) as [c|].
  - assert (t ∈ Type_ <$> conditionsToSet b) as Hin.
    { destruct (decide (t ∈ Type_ <$> conditionsToSet b)); [done|].
      assert (Some c = None) by (by apply Hl). done. }
    split; [by right|]. intros _.
    destruct (decide (t ∈ Type_ <$> conditions (setLoop (conditionsToSet b) w0).2))
      as [|Hnin]; [done|].
    apply Hn in Hnin. by rewrite Hnin in Hv.
  - assert (t ∉ Type_ <$> conditionsToSet b) as Hnin by (by apply Hl).
    rewrite <- Hk. split.
    + intros Hin. left.
      destruct (decide (t ∈ Type_ <$> keepOnly (conditionsToKeep b) (conditions w)))
        as [|Hnk]; [done|].
      apply Hn0 in Hnk. rewrite Hnk in Hv. simpl in Hv.
      assert (conditionOf (conditions (setLoop (conditionsToSet b) w0).2) t = None)
        as Hnone by (by destruct (conditionOf _ t)).
      apply Hn in Hnone. done.
    + intros [Hin|Hin]; [|done].
      destruct (decide (t ∈ Type_ <$> conditions (setLoop (conditionsToSet b) w0).2))
        as [|Hnf]; [done|].
      apply Hn in Hnf. rewrite Hnf in Hv. simpl in Hv.
      assert (conditionOf (keepOnly (conditionsToKeep b) (conditions w)) t = None)
        as Hnone by (by destruct (conditionOf _ t)).
      apply Hn0 in Hnone. done.
Qed.

Lemma X6_type_keys_witness :
  "Ready" ∈ (Type_ <$> conditions
     (Run builderKeepReady Background okState (world0 [condOverlap])).2).
Proof.
  apply (X6_type_keys_after_Run builderKeepReady Background okState
           (world0 [condOverlap]) "Ready" okState_keeps
           (noHooks_keep builderKeepReady eq_refl eq_refl eq_refl)).
  right. simpl. left.
Defined.

(** X7: a condition whose type is kept and is not among the conditions to
    set is left exactly as it was, transition time included. *)
Theorem X7_kept_and_not_set_is_untouched
    (b : UpdateStatusBuilder) (ctx : Context) (st : State) (w : World)
    (t : string) :
  stateKeepsConditions st -> hooksKeepConditions b ->
  t ∈ conditionsToKeep b ->
  Forall (fun c => Type_ c ≠ t) (conditionsToSet b) ->
  conditionOf (conditions (Run b ctx st w).2) t = conditionOf (conditions w) t.
Proof.
  intros Hst Hb Hk Hset. rewrite Run_conditions by assumption.
  rewrite setLoop_conditionOf_other by done. simpl.
  by rewrite conditionOf_keepOnly, decide_True.
Qed.

(** X8: after [Run], the object shows, under the type of the condition
    most recently passed to [SetCondition], that condition's status,
    reason, message and observed generation. *)
Theorem X8_last_SetCondition_wins
    (b : UpdateStatusBuilder) (c : Condition) (ctx : Context) (st : State)
    (w : World) :
  stateKeepsConditions st -> hooksKeepConditions b ->
  stripTime <$> conditionOf (conditions (Run (SetCondition c b) ctx st w).2) (Type_ c)
  = Some (stripTime c).
Proof.
  intros Hst Hb. rewrite Run_conditions; [|done|exact Hb].
  rewrite setLoop_conditionOf. unfold lastSet. simpl.
  rewrite filter_app, filter_cons, decide_True by done.
  rewrite filter_nil. by rewrite last_snoc.
Qed.

Lemma X7_kept_and_not_set_witness :
  conditionOf (conditions
     (Run builderKeepBoth Background okState (world0 [condReadyOld; condOverlap])).2)
    "Overlap"
  = Some condOverlap.
Proof.
  rewrite (X7_kept_and_not_set_is_untouched builderKeepBoth Background okState
             (world0 [condReadyOld; condOverlap]) "Overlap" okState_keeps
             (noHooks_keep builderKeepBoth eq_refl eq_refl eq_refl)).
  - reflexivity.
  - simpl. apply elem_of_union. left. by apply elem_of_singleton.
  - simpl. repeat constructor. discriminate.
Defined.

Lemma X8_last_SetCondition_witness :
  stripTime <$> conditionOf (conditions
     (Run (SetCondition condReadyAt70 builderKeepReady) Background okState
        (world0 [condReadyOld; condOverlap])).2) "Ready"
  = Some (stripTime condReadyAt70).
Proof.
  exact (X8_last_SetCondition_wins builderKeepReady condReadyAt70 Background okState
           (world0 [condReadyOld; condOverlap]) okState_keeps
           (noHooks_keep builderKeepReady eq_refl eq_refl eq_refl)).
Defined.

Lemma conditionOf_snoc (cs : list Condition) (x : Condition) :
  Type_ x ∉ (Type_ <$> cs) -> conditionOf (cs ++ [x]) (Type_ x) = Some x.
Proof.
  induction cs as [|c cs IH].
  - intros _. by rewrite app_nil_l, conditionOf_cons, decide_True.
  - rewrite fmap_cons, not_elem_of_cons. intros [Hne Hnin].
    rewrite <- app_comm_cons, conditionOf_cons, decide_False by congruence.
    by apply IH.
Qed.

(** X9: [Run] does not move the transition time of a kept condition
    whose status the conditions to set do not change: if the type is in
    the keep-list and every condition to set of that type has the status
    the object already shows, the entry keeps its transition time. *)
Theorem X9_transition_time_kept_when_status_unchanged
    (b : UpdateStatusBuilder) (ctx : Context) (st : State) (w : World)
    (t : string) (e : Condition) :
  stateKeepsConditions st -> hooksKeepConditions b ->
  t ∈ conditionsToKeep b ->
  conditionOf (conditions w) t = Some e ->
  Forall (fun c => Type_ c = t -> Status c = Status e) (conditionsToSet b) ->
  exists e', conditionOf (conditions (Run b ctx st w).2) t = Some e' /\
             LastTransitionTime e' = LastTransitionTime e /\
             Status e' = Status e.
Proof.
  intros Hst Hb Hk He Hset. rewrite Run_conditions by assumption.
  apply (setLoop_preserves
           (fun cs => exists e', conditionOf cs t = Some e' /\
                        LastTransitionTime e' = LastTransitionTime e /\
                        Status e' = Status e)).
  - intros now c cs Hc (e' & He' & Hlt & Hs).
    rewrite Forall_forall in Hset. specialize (Hset c Hc).
    destruct (decide (Type_ c = t)) as [Heq|Hne].
    + subst t. exists (updated now e' c). split.
      * by apply conditionOf_upsert_hit.
      * unfold updated; simpl.
        rewrite decide_False by (rewrite Hs, Hset by done; auto).
        split; [done|]. by rewrite Hset.
    + exists e'. split; [|done]. rewrite conditionOf_upsert_other; [done|congruence].
  - simpl. exists e. split; [|done].
    by rewrite conditionOf_keepOnly, decide_True.
Qed.

Lemma X9_transition_time_witness :
  exists e', conditionOf (conditions
       (Run (SetCondition condReadyStill
               (RemoveAllConditionsExcept ["Ready"] (UpdateStatus obj0)))
            Background okState (world0 [condReadyOld; condOverlap])).2) "Ready"
     = Some e' /\
     LastTransitionTime e' = 40 /\ Status e' = "False".
Proof.
  apply (X9_transition_time_kept_when_status_unchanged
           (SetCondition condReadyStill
              (RemoveAllConditionsExcept ["Ready"] (UpdateStatus obj0)))
           Background okState (world0 [condReadyOld; condOverlap]) "Ready"
           condReadyOld okState_keeps).
  - by apply noHooks_keep.
  - simpl. apply elem_of_union. left. by apply elem_of_singleton.
  - reflexivity.
  - simpl. repeat constructor.
Defined.

(** X10: a condition that is set but whose type is not in the keep-list
    loses the transition time the object had for it: set first among the
    conditions to set, alone of its type and carrying no transition time,
    it ends up stamped with the clock reading [Run] starts at, whatever
    the object held under that type. *)
Theorem X10_set_but_not_kept_is_restamped
    (b : UpdateStatusBuilder) (ctx : Context) (st : State) (w : World)
    (c : Condition) (rest : list Condition) :
  stateKeepsConditions st -> hooksKeepConditions b ->
  conditionsToSet b = c :: rest ->
  Forall (fun c' => Type_ c' ≠ Type_ c) rest ->
  Type_ c ∉ conditionsToKeep b ->
  LastTransitionTime c = 0 ->
  conditionOf (conditions (Run b ctx st w).2) (Type_ c)
  = Some (withLastTransitionTime (clock w (ticks w)) c).
Proof.
  intros Hst Hb Hset Hrest Hnk Hz. rewrite Run_conditions by assumption.
  rewrite Hset, setLoop_cons, setLoop_conditionOf_other by done.
  destruct (SetStatusCondition_run c
              (setConditions (keepOnly (conditionsToKeep b) (conditions w)) w))
    as (-> & _). simpl.
  assert (Type_ c ∉ Type_ <$> keepOnly (conditionsToKeep b) (conditions w)) as Hnin.
  { rewrite keepOnly_types. tauto. }
  rewrite upsert_absent by done.
  assert (stamped (clock w (ticks w)) c
          = withLastTransitionTime (clock w (ticks w)) c) as Hstamp.
  { unfold stamped, IsZero. by rewrite Hz. }
  rewrite Hstamp.
  change (Type_ c) with (Type_ (withLastTransitionTime (clock w (ticks w)) c)) at 1.
  apply conditionOf_snoc. exact Hnin.
Qed.

Lemma X10_set_but_not_kept_witness :
  conditionOf (conditions
     (Run builderReady Background okState (world0 [condReadyOld])).2) "Ready"
  = Some (withLastTransitionTime 100 condReady).
Proof.
  apply (X10_set_but_not_kept_is_restamped builderReady Background okState
           (world0 [condReadyOld]) condReady [] okState_keeps).
  - by apply noHooks_keep.
  - reflexivity.
  - constructor.
  - simpl. apply not_elem_of_empty.
  - reflexivity.
Defined.

(** X11: with no condition to set, [Run] leaves the entries whose type is
    in the keep-list, in their order, and nothing else; when every type on
    the object is in the keep-list the slice is unchanged. *)
Theorem X11_nothing_to_set_filters_by_keep_list
    (b : UpdateStatusBuilder) (ctx : Context) (st : State) (w : World) :
  stateKeepsConditions st -> hooksKeepConditions b ->
  conditionsToSet b = [] ->
  conditions (Run b ctx st w).2
    = filter (fun c => Type_ c ∈ conditionsToKeep b) (conditions w) /\
  ((forall c, c ∈ conditions w -> Type_ c ∈ conditionsToKeep b) ->
   conditions (Run b ctx st w).2 = conditions w).
Proof.
  intros Hst Hb Hset. rewrite Run_conditions by assumption. rewrite Hset.
  split; [done|]. intros Hall. simpl. unfold keepOnly. by apply filter_all.
Qed.

Lemma X11_nothing_to_set_witness :
  conditions (Run builderKeepB
                Background okState (world0 [condA; condB; condReadyOld])).2
  = [condB].
Proof.
  rewrite (proj1 (X11_nothing_to_set_filters_by_keep_list
                    builderKeepB
                    Background okState (world0 [condA; condB; condReadyOld])
                    okState_keeps (noHooks_keep builderKeepB eq_refl eq_refl eq_refl) eq_refl)).
  reflexivity.
Defined.

(** X12: [RemoveAllConditionsExcept] only ever adds to the keep-list: the
    keep-list after the call is the one before it together with the types
    named, so repeated calls accumulate, and neither the order of the
    types nor a repeated type matters. *)
Theorem X12_RemoveAllConditionsExcept_accumulates
    (conditionTypes : list string) (b : UpdateStatusBuilder) :
  conditionsToKeep (RemoveAllConditionsExcept conditionTypes b)
  = list_to_set conditionTypes ∪ conditionsToKeep b.
Proof.
  unfold RemoveAllConditionsExcept; simpl.
  generalize (conditionsToKeep b) as keep.
  induction conditionTypes as [|t l IH]; intros keep; simpl.
  - by rewrite (left_id_L ∅ (∪)).
  - rewrite IH. apply set_eq. intros x.
    rewrite !elem_of_union, elem_of_singleton. tauto.
Qed.

(** X13: when every condition to set carries its own transition time,
    the slice [Run] leaves does not depend on the clock. *)
Theorem X13_own_transition_times_make_Run_clock_free
    (b : UpdateStatusBuilder) (ctx : Context) (st : State) (w : World)
    (clock' : nat -> Time) (ticks' : nat) :
  stateKeepsConditions st -> hooksKeepConditions b ->
  Forall (fun c => LastTransitionTime c ≠ 0) (conditionsToSet b) ->
  conditions (Run b ctx st (mkWorld (conditions w) clock' ticks' (logged w))).2
  = conditions (Run b ctx st w).2.
Proof.
  intros Hst Hb Hnz. rewrite !Run_conditions by assumption.
  by apply setLoop_clock_irrelevant.
Qed.

Lemma X13_clock_free_witness :
  conditions (Run builderReadyAt70 Background okState
                (mkWorld [condOverlap] (fun _ => 999) 5 [])).2
  = [condReadyAt70].
Proof.
  transitivity (conditions (Run builderReadyAt70 Background okState
                              (world0 [condOverlap])).2); [|reflexivity].
  apply (X13_own_transition_times_make_Run_clock_free
           builderReadyAt70 Background okState
           (world0 [condOverlap]) (fun _ => 999) 5 okState_keeps
           (noHooks_keep builderReadyAt70 eq_refl eq_refl eq_refl)).
  simpl. repeat constructor. discriminate.
Defined.

(** ** When a second [Run] changes nothing *)

Lemma setLoop_conditionOf_single (l : list Condition) (c : Condition) (w : World) :
  NoDup (Type_ <$> l) -> c ∈ l ->
  exists now,
    conditionOf (conditions (setLoop l w).2) (Type_ c)
    = Some (match conditionOf (conditions w) (Type_ c) with
            | Some e => updated now e c
            | None => stamped now c
            end).
Proof.
  revert w. induction l as [|c' l IH]; intros w Hnd Hc.
  - by apply elem_of_nil in Hc.
  - rewrite fmap_cons, NoDup_cons in Hnd. destruct Hnd as [Hnin Hnd].
    rewrite setLoop_cons.
    destruct (SetStatusCondition_run c' w) as (Hcs & _).
    destruct (decide (c = c')) as [->|Hne].
    + exists (clock w (ticks w)).
      rewrite setLoop_conditionOf_other.
      * rewrite Hcs.
        destruct (conditionOf (conditions w) (Type_ c')) as [e|] eqn:He.
        -- by apply conditionOf_upsert_hit.
        -- apply conditionOf_None in He. rewrite upsert_absent by done.
           rewrite <- (stamped_Type (clock w (ticks w)) c') at 1.
           apply conditionOf_snoc. by rewrite stamped_Type.
      * apply Forall_forall. intros x Hx Heq. apply Hnin.
        apply list_elem_of_fmap. exists x. by split.
    + apply elem_of_cons in Hc as [?|Hc]; [done|].
      destruct (IH (meta.SetStatusCondition c' w).2 Hnd Hc) as (now & Hnow).
      exists now. rewrite Hnow, Hcs. rewrite conditionOf_upsert_other; [done|].
      intros Heq. apply Hnin. apply list_elem_of_fmap. exists c. by split.
Qed.

Lemma updated_again (now now' : Time) (e c : Condition) :
  updated now' (updated now e c) c = updated now e c.
Proof.
  unfold updated; simpl.
  destruct (decide (Status c ≠ Status c)); [congruence|reflexivity].
Qed.

Lemma updated_stamped (now now' : Time) (c : Condition) :
  updated now' (stamped now c) c = stamped now c.
Proof.
  unfold updated, stamped.
  destruct (IsZero (LastTransitionTime c)), c; simpl;
    (destruct (decide _); [congruence|reflexivity]).
Qed.

(** X14: a second [Run] right after the first leaves every entry exactly
    as the first left it, transition time included, when the conditions
    to set have pairwise distinct types and each of them either has its
    type in the keep-list or carries its own transition time. *)
Theorem X14_second_Run_changes_nothing
    (b : UpdateStatusBuilder) (ctx : Context) (st : State) (w : World)
    (t : string) :
  stateKeepsConditions st -> hooksKeepConditions b ->
  NoDup (Type_ <$> conditionsToSet b) ->
  Forall (fun c => Type_ c ∈ conditionsToKeep b \/ LastTransitionTime c ≠ 0)
         (conditionsToSet b) ->
  let first := Run b ctx st w in
  let second := Run first.1.1 ctx st first.2 in
  conditionOf (conditions second.2) t = conditionOf (conditions first.2) t.
Proof.
  intros Hst Hb Hnd Hall first second. subst second first.
  rewrite Run_builder.
  rewrite (Run_conditions (setDefaults b))
    by (assumption || by apply hooksKeepConditions_setDefaults).
  rewrite (Run_conditions b) by assumption.
  change (conditionsToSet (setDefaults b)) with (conditionsToSet b).
  change (conditionsToKeep (setDefaults b)) with (conditionsToKeep b).
  set (K := conditionsToKeep b). set (l := conditionsToSet b) in *.
  set (w0 := setConditions (keepOnly K (conditions w)) w).
  set (w1 := (setLoop l w0).2).
  set (w0' := setConditions (keepOnly K (conditions w1)) _).
  destruct (decide (t ∈ Type_ <$> l)) as [Hin|Hnin].
  - apply list_elem_of_fmap in Hin as (c & -> & Hc).
    destruct (setLoop_conditionOf_single l c w0 Hnd Hc) as (now & H1).
    destruct (setLoop_conditionOf_single l c w0' Hnd Hc) as (now' & H2).
    fold w1 in H1. rewrite H1, H2.
    change (conditions w0') with (keepOnly K (conditions w1)).
    change (conditions w0) with (keepOnly K (conditions w)).
    rewrite !conditionOf_keepOnly.
    destruct (decide (Type_ c ∈ K)) as [Hk|Hnk].
    + rewrite H1. change (conditions w0) with (keepOnly K (conditions w)).
      rewrite conditionOf_keepOnly, decide_True by done.
      destruct (conditionOf (conditions w) (Type_ c)) as [e|] eqn:He.
      * by rewrite updated_again.
      * by rewrite updated_stamped.
    + rewrite Forall_forall in Hall. destruct (Hall c Hc) as [Hin'|Hnz]; [by destruct Hnk|].
      unfold stamped, IsZero. by rewrite !bool_decide_eq_false_2.
  - assert (Forall (fun c => Type_ c ≠ t) l) as Hl.
    { apply Forall_forall. intros c Hc Heq. apply Hnin.
      apply list_elem_of_fmap. by exists c. }
    rewrite !setLoop_conditionOf_other by done.
    change (conditions w0') with (keepOnly K (conditions w1)).
    change (conditions w0) with (keepOnly K (conditions w)).
    rewrite !conditionOf_keepOnly.
    destruct (decide (t ∈ K)); [done|].
    unfold w1. rewrite setLoop_conditionOf_other by done.
    change (conditions w0) with (keepOnly K (conditions w)).
    by rewrite conditionOf_keepOnly, decide_False.
Qed.

Lemma X14_second_Run_witness :
  let first := Run builderKeepReady Background okState
                 (world0 [condReadyOld; condOverlap]) in
  let second := Run first.1.1 Background okState first.2 in
  conditionOf (conditions second.2) "Ready"
  = Some (mkCondition "Ready" "True" 0 100 "Ready" "provisioned").
Proof.
  intros first second.
  transitivity (conditionOf (conditions first.2) "Ready"); [|reflexivity].
  apply (X14_second_Run_changes_nothing builderKeepReady Background okState
           (world0 [condReadyOld; condOverlap]) "Ready" okState_keeps
           (noHooks_keep builderKeepReady eq_refl eq_refl eq_refl)).
  - simpl. apply NoDup_singleton.
  - simpl. constructor; [|constructor]. left.
    apply elem_of_union. left. by apply elem_of_singleton.
Defined.

(** ** The IpRange entry point once the state exists *)

(** X15: when [NewState] succeeds, [New] runs one pipeline only, on the
    state [NewState] returned: the delete steps if
    [MarkedForDeletionPredicate] holds of it, the non-delete steps
    otherwise (the sequential and switch composers being those modelled
    from the specification).  The first step of that pipeline that returns
    a signal ends [New] with that signal, in the world that step left: no
    later step runs ([removeFinalizer], last of the delete steps, runs
    only after the eight steps before it returned continue), and no step
    of the other pipeline does. *)
Theorem X15_New_runs_one_pipeline_up_to_first_signal
    {St TypesState AwsState : Type}
    (assertTypesState : St -> option TypesState)
    (steps : iprange.Steps AwsState)
    (stateFactory : iprange.StateFactory TypesState AwsState)
    (ctx : Context) (st : St) (st' : TypesState) (w : World)
    (state : AwsState) (w1 : World)
    (pre post : list (Action AwsState)) (a : Action AwsState)
    (ctx1 : Context) (w2 : World) (signal : error)
    (nextCtx : option Context) (w3 : World) :
  assertTypesState st = Some st' ->
  iprange.NewState stateFactory ctx st' w = ((state, None), w1) ->
  (if iprange.MarkedForDeletionPredicate _ steps state w1
   then deleteActions steps else nonDeleteActions steps) = pre ++ a :: post ->
  continuesThrough pre ctx state w1 ctx1 w2 ->
  a ctx1 state w2 = ((Some signal, nextCtx), w3) ->
  fst <$> (iprange.New assertTypesState steps stateFactory ctx st w).1
    = Some (Some signal) /\
  (iprange.New assertTypesState steps stateFactory ctx st w).2 = w3.
Proof.
  intros Hassert Hnew Hsplit Hpre Ha. unfold iprange.New. rewrite Hassert.
  rewrite bind_run, Hnew. cbn [fst snd]. rewrite bind_run.
  unfold BuildSwitchAction. cbn [selectCase casePredicate caseAction].
  assert (forall l, l = pre ++ a :: post ->
            (runActions l ctx state w1).1.1 = Some signal /\
            (runActions l ctx state w1).2 = w3) as Hrun.
  { intros l ->. rewrite (runActions_continues pre _ _ _ _ _ _ Hpre).
    cbn [runActions]. rewrite bind_run, Ha. done. }
  destruct (iprange.MarkedForDeletionPredicate AwsState steps state w1).
  - destruct (Hrun _ Hsplit) as [H1 H2].
    unfold iprange.deletePipeline, ComposeActions.
    change (runActions _ ctx state w1) with
      (runActions (deleteActions steps) ctx state w1).
    unfold ret. cbn [fst snd fmap option_fmap option_map]. by rewrite H1, H2.
  - destruct (Hrun _ Hsplit) as [H1 H2].
    unfold iprange.nonDeletePipeline, ComposeActions.
    change (runActions _ ctx state w1) with
      (runActions (nonDeleteActions steps) ctx state w1).
    unfold ret. cbn [fst snd fmap option_fmap option_map]. by rewrite H1, H2.
Qed.

Lemma X15_New_delete_path_witness :
  fst <$> (iprange.New Some deletingSteps okFactory Background tt (world0 [])).1
    = Some (Some StopWithRequeue) /\
  logged (iprange.New Some deletingSteps okFactory Background tt (world0 [])).2
    = [mkLogEntry None "removeReadyCondition"; mkLogEntry None "loadVpc";
       mkLogEntry None "loadSubnets"; mkLogEntry None "findCloudResourceSubnets";
       mkLogEntry None "deleteSubnets"; mkLogEntry None "waitSubnetsDeleted"].
Proof.
  assert (continuesThrough
            [tracedStep "removeReadyCondition"; tracedStep "loadVpc";
             tracedStep "loadSubnets"; tracedStep "findCloudResourceSubnets";
             tracedStep "deleteSubnets"]
            Background tt (world0 []) Background
            (mkWorld [] clock0 0
               [mkLogEntry None "removeReadyCondition"; mkLogEntry None "loadVpc";
                mkLogEntry None "loadSubnets";
                mkLogEntry None "findCloudResourceSubnets";
                mkLogEntry None "deleteSubnets"])) as Hpre.
  { repeat (eapply continuesThrough_cons; [reflexivity|]).
    apply continuesThrough_nil. }
  destruct (X15_New_runs_one_pipeline_up_to_first_signal Some deletingSteps
              okFactory Background tt tt (world0 []) tt (world0 [])
              [tracedStep "removeReadyCondition"; tracedStep "loadVpc";
               tracedStep "loadSubnets"; tracedStep "findCloudResourceSubnets";
               tracedStep "deleteSubnets"]
              [tracedStep "disassociateVpcAddressSpace";
                 tracedStep "waitCidrBlockDisassociated";
                 tracedStep "removeFinalizer"]
              (iprange.waitSubnetsDeleted _ deletingSteps)
              Background _ StopWithRequeue None _
              eq_refl eq_refl eq_refl Hpre eq_refl) as [Hsig Hworld].
  split; [exact Hsig|]. rewrite Hworld. reflexivity.
Defined.

(** * [Run] against the five steps of the specification *)

Lemma sameButSetTimes_refl (toSet cs : list Condition) :
  sameButSetTimes toSet cs cs.
Proof. unfold sameButSetTimes. induction cs; constructor; auto. Qed.

(** The library's upsert follows the specification's, transition time
    apart. *)
Lemma upsert_follows_upsertByType (toSet : list Condition) (now : Time)
    (c : Condition) (cs cs' : list Condition) :
  Type_ c ∈ (Type_ <$> toSet) ->
  sameButSetTimes toSet cs cs' ->
  sameButSetTimes toSet (upsert now c cs) (upsertByType c cs').
Proof.
  intros Hc. unfold sameButSetTimes.
  induction 1 as [|a e cs cs' [Hstrip Hsame] Hrest IH]; cbn [upsert upsertByType].
  - constructor; [|constructor]. split; [apply stamped_stripTime|done].
  - assert (Type_ a = Type_ e) as Hty by exact (f_equal Type_ Hstrip).
    rewrite Hty. destruct (decide (Type_ e = Type_ c)) as [Heq|Hne].
    + constructor; [|exact Hrest]. split; [|done].
      apply updated_stripTime. congruence.
    + constructor; [by split|exact IH].
Qed.

Lemma setLoop_follows_reconcile (toSet l : list Condition) (w : World)
    (cs' : list Condition) :
  (forall c, c ∈ l -> Type_ c ∈ (Type_ <$> toSet)) ->
  sameButSetTimes toSet (conditions w) cs' ->
  sameButSetTimes toSet (conditions (setLoop l w).2)
    (foldl (fun acc entry => upsertByType entry acc) cs' l).
Proof.
  revert w cs'. induction l as [|c l IH]; intros w cs' Hl Hsame; [done|].
  rewrite setLoop_cons. cbn [foldl]. apply IH.
  - intros x Hx. apply Hl. by right.
  - destruct (SetStatusCondition_run c w) as (-> & _).
    apply upsert_follows_upsertByType; [apply Hl; left|done].
Qed.

Lemma callUpdateErrorWrapper_errorWrapperOf (b : UpdateStatusBuilder)
    (err : option error) :
  callUpdateErrorWrapper (setDefaults b) err = errorWrapperOf b err.
Proof.
  unfold callUpdateErrorWrapper, errorWrapperOf, setDefaults; simpl.
  by destruct (updateErrorWrapper b).
Qed.

Lemma callOnUpdateError_onPersistenceError (b : UpdateStatusBuilder)
    (ctx : Context) (err : option error) :
  callOnUpdateError (setDefaults b) ctx err = onPersistenceError b ctx err.
Proof.
  unfold callOnUpdateError, onPersistenceError, LogErrorAndReturn, setDefaults;
    simpl.
  destruct (onUpdateError b) as [[f|]|], (failedError b); reflexivity.
Qed.

Lemma callOnUpdateSuccess_onPersistenceSuccess (b : UpdateStatusBuilder)
    (ctx : Context) :
  callOnUpdateSuccess (setDefaults b) ctx = onPersistenceSuccess b ctx.
Proof.
  unfold callOnUpdateSuccess, onPersistenceSuccess, setDefaults; simpl.
  destruct (onUpdateSuccess b) as [[f|]|], (successError b); reflexivity.
Qed.

(** C4: what [Run] returns and the world it leaves are what the five
    steps of the specification give, in their order, the removal policy
    being active in every [Run]: (1) the conditions whose type is on the
    object but not in the keep-list are dropped; (2) each configured
    condition is upserted by type key, replacing the entry of its type or
    else appended (the result is the specification's, entry by entry,
    apart from the transition time of the entries set); (3) the
    persistence capability is called on that world; (4) on failure the
    error wrapper is applied and the on-error hook's result returned;
    (5) on success the on-success hook's result is returned. *)
Theorem C4_Run_is_the_five_steps
    (b : UpdateStatusBuilder) (ctx : Context) (st : State) (w : World) :
  Run_steps true b ctx st w ((Run b ctx st w).1.2, (Run b ctx st w).2).
Proof.
  unfold Run_steps.
  exists (applyConditionChanges (setDefaults b) w).2.
  rewrite applyConditionChanges_run.
  assert (doRemoveConditions (setDefaults b) = true) as -> by reflexivity.
  change (conditionsToSet (setDefaults b)) with (conditionsToSet b).
  change (conditionsToKeep (setDefaults b)) with (conditionsToKeep b).
  set (w0 := setConditions (keepOnly (conditionsToKeep b) (conditions w)) w).
  split; [|split; [|split]].
  - unfold reconciled. rewrite removeStale_keepOnly.
    apply setLoop_follows_reconcile.
    + intros c Hc. apply list_elem_of_fmap. by exists c.
    + apply sameButSetTimes_refl.
  - by destruct (setLoop_frame (conditionsToSet b) w0) as [-> _].
  - by destruct (setLoop_frame (conditionsToSet b) w0) as [_ ->].
  - rewrite Run_unfold, applyConditionChanges_run.
    assert (doRemoveConditions (setDefaults b) = true) as -> by reflexivity.
    change (conditionsToSet (setDefaults b)) with (conditionsToSet b).
    change (conditionsToKeep (setDefaults b)) with (conditionsToKeep b).
    fold w0. unfold persistAndReport. rewrite bind_run.
    destruct (UpdateObjStatus st ctx (setLoop (conditionsToSet b) w0).2)
      as [[e|] w2]; cbn [fst snd].
    + rewrite !bind_run. cbn [fst snd].
      rewrite callUpdateErrorWrapper_errorWrapperOf.
      rewrite callOnUpdateError_onPersistenceError.
      by destruct (onPersistenceError b ctx _ _).
    + rewrite !bind_run. cbn [fst snd].
      rewrite callOnUpdateSuccess_onPersistenceSuccess.
      by destruct (onPersistenceSuccess b ctx w2).
Qed.

(** The five steps leave no freedom in the conditions but the transition
    times: whatever they give has the reconciled entries, in order. *)
Lemma Run_steps_conditions (removalActive : bool) (b : UpdateStatusBuilder)
    (ctx : Context) (st : State) (w : World) (out : Result * World) :
  stateKeepsConditions st -> hooksKeepConditions b ->
  Run_steps removalActive b ctx st w out ->
  stripTime <$> conditions out.2
  = stripTime <$> reconciled removalActive (conditionsToKeep b)
                    (conditionsToSet b) (conditions w).
Proof.
  intros Hst (Hw & He & Hs) (w1 & Hsame & _ & _ & Hout).
  assert (conditions out.2 = conditions w1) as ->.
  { pose proof (Hst ctx w1) as Hp.
    destruct (UpdateObjStatus st ctx w1) as [[e|] w2]; simpl in Hp; subst out.
    - rewrite bind_run. rewrite <- Hp.
      assert (conditions (errorWrapperOf b (Some e) w2).2 = conditions w2) as <-.
      { unfold errorWrapperOf.
        destruct (updateErrorWrapper b) as [f|] eqn:Hf; [by apply (Hw f)|done]. }
      unfold onPersistenceError.
      destruct (onUpdateError b) as [[f|]|] eqn:Hf; [by apply (He f)|done|done].
    - rewrite <- Hp. unfold onPersistenceSuccess.
      destruct (onUpdateSuccess b) as [[f|]|] eqn:Hf; [by apply (Hs f)|done|done]. }
  unfold sameButSetTimes in Hsame.
  induction Hsame as [|a e l l' [Hae _] _ IH]; [done|].
  by rewrite !fmap_cons, Hae, IH.
Qed.

(** * A second [Run], key by key *)

Lemma second_Run_unset_key
    (b : UpdateStatusBuilder) (ctx : Context) (st : State) (w : World)
    (t : string) :
  stateKeepsConditions st -> hooksKeepConditions b ->
  t ∉ (Type_ <$> conditionsToSet b) ->
  conditionOf (conditions (Run (setDefaults b) ctx st (Run b ctx st w).2).2) t
  = conditionOf (conditions (Run b ctx st w).2) t.
Proof.
  intros Hst Hb Hnin.
  assert (Forall (fun c => Type_ c ≠ t) (conditionsToSet b)) as Hl.
  { apply Forall_forall. intros c Hc Heq. apply Hnin.
    apply list_elem_of_fmap. by exists c. }
  rewrite (Run_conditions (setDefaults b))
    by (assumption || by apply hooksKeepConditions_setDefaults).
  rewrite (Run_conditions b) by assumption.
  change (conditionsToSet (setDefaults b)) with (conditionsToSet b).
  change (conditionsToKeep (setDefaults b)) with (conditionsToKeep b).
  rewrite !setLoop_conditionOf_other by done. simpl.
  rewrite !conditionOf_keepOnly.
  destruct (decide (t ∈ conditionsToKeep b)); [|done].
  rewrite setLoop_conditionOf_other by done. simpl.
  by rewrite conditionOf_keepOnly, decide_True.
Qed.

(** The entry under a key that exactly one of the conditions to set has. *)
Lemma setLoop_conditionOf_only (l : list Condition) (c : Condition)
    (t : string) (w : World) :
  filter (fun x => Type_ x = t) l = [c] ->
  exists now,
    conditionOf (conditions (setLoop l w).2) t
    = Some (match conditionOf (conditions w) t with
            | Some e => updated now e c
            | None => stamped now c
            end).
Proof.
  revert w. induction l as [|c' l IH]; intros w Hf; [done|].
  rewrite filter_cons in Hf. rewrite setLoop_cons.
  destruct (SetStatusCondition_run c' w) as (Hcs & _).
  destruct (decide (Type_ c' = t)) as [Heq|Hne].
  - injection Hf as -> Hnil. subst t. exists (clock w (ticks w)).
    rewrite setLoop_conditionOf_other.
    + rewrite Hcs.
      destruct (conditionOf (conditions w) (Type_ c)) as [e|] eqn:He.
      * by apply conditionOf_upsert_hit.
      * apply conditionOf_None in He. rewrite upsert_absent by done.
        rewrite <- (stamped_Type (clock w (ticks w)) c) at 1.
        apply conditionOf_snoc. by rewrite stamped_Type.
    + apply Forall_forall. intros x Hx Heq.
      assert (x ∈ filter (fun x => Type_ x = Type_ c) l) as Hin
        by (by apply list_elem_of_filter).
      rewrite Hnil in Hin. by apply elem_of_nil in Hin.
  - destruct (IH (meta.SetStatusCondition c' w).2 Hf) as (now & Hnow).
    exists now. rewrite Hnow, Hcs. by rewrite conditionOf_upsert_other.
Qed.

Lemma second_Run_single_key
    (b : UpdateStatusBuilder) (ctx : Context) (st : State) (w : World)
    (t : string) (c : Condition) :
  stateKeepsConditions st -> hooksKeepConditions b ->
  filter (fun x => Type_ x = t) (conditionsToSet b) = [c] ->
  t ∈ conditionsToKeep b \/ LastTransitionTime c ≠ 0 ->
  conditionOf (conditions (Run (setDefaults b) ctx st (Run b ctx st w).2).2) t
  = conditionOf (conditions (Run b ctx st w).2) t.
Proof.
  intros Hst Hb Hf Hor.
  rewrite (Run_conditions (setDefaults b))
    by (assumption || by apply hooksKeepConditions_setDefaults).
  rewrite (Run_conditions b) by assumption.
  change (conditionsToSet (setDefaults b)) with (conditionsToSet b).
  change (conditionsToKeep (setDefaults b)) with (conditionsToKeep b).
  set (K := conditionsToKeep b) in *. set (l := conditionsToSet b) in *.
  set (w0 := setConditions (keepOnly K (conditions w)) w).
  destruct (setLoop_conditionOf_only l c t w0 Hf) as (now & H1).
  set (w0' := setConditions (keepOnly K (conditions (setLoop l w0).2)) _).
  destruct (setLoop_conditionOf_only l c t w0' Hf) as (now' & H2).
  rewrite H2, H1.
  change (conditions w0') with (keepOnly K (conditions (setLoop l w0).2)).
  change (conditions w0) with (keepOnly K (conditions w)).
  rewrite !conditionOf_keepOnly.
  destruct (decide (t ∈ K)) as [Hk|Hnk].
  - rewrite H1. change (conditions w0) with (keepOnly K (conditions w)).
    rewrite conditionOf_keepOnly, decide_True by done.
    destruct (conditionOf (conditions w) t).
    + by rewrite updated_again.
    + by rewrite updated_stamped.
  - destruct Hor as [Hk|Hnz]; [by destruct Hnk|].
    unfold stamped, IsZero. by rewrite !bool_decide_eq_false_2.
Qed.

(** C5 (as the code has it): a second [Run] of the same builder right
    after the first leaves the same type keys, and no duplicate key if
    the object had none (an upsert replaces, it does not append a
    duplicate).  Under every key that is not among the conditions to set,
    and under every key that exactly one of the conditions to set has,
    that condition being of a kept type or carrying its own transition
    time, the entry is the one the first [Run] left, transition time
    included.  Under the other keys that are set, the entry has the same
    status, reason, message and observed generation, and only its
    transition time may differ. *)
Theorem C5_second_Run_differs_only_in_restamped_times
    (b : UpdateStatusBuilder) (ctx : Context) (st : State) (w : World) :
  stateKeepsConditions st -> hooksKeepConditions b ->
  let first := Run b ctx st w in
  let second := Run first.1.1 ctx st first.2 in
  (forall t, t ∉ (Type_ <$> conditionsToSet b) ->
     conditionOf (conditions second.2) t = conditionOf (conditions first.2) t) /\
  (forall t c, filter (fun x => Type_ x = t) (conditionsToSet b) = [c] ->
     t ∈ conditionsToKeep b \/ LastTransitionTime c ≠ 0 ->
     conditionOf (conditions second.2) t = conditionOf (conditions first.2) t) /\
  (forall t, stripTime <$> conditionOf (conditions second.2) t
             = stripTime <$> conditionOf (conditions first.2) t) /\
  (NoDup (Type_ <$> conditions w) -> NoDup (Type_ <$> conditions second.2)).
Proof.
  intros Hst Hb first second. subst second first.
  rewrite Run_builder. repeat split.
  - intros t Ht. by apply second_Run_unset_key.
  - intros t c Hf Hor. by apply (second_Run_single_key b ctx st w t c).
  - intros t. by apply second_Run_conditionOf.
  - intros Hnd. apply Run_NoDup; [|assumption|by apply hooksKeepConditions_setDefaults].
    by apply Run_NoDup.
Qed.

Lemma C5_second_Run_witness :
  let first := Run builderKeepBoth Background okState
                 (world0 [condReadyOld; condOverlap]) in
  let second := Run first.1.1 Background okState first.2 in
  conditionOf (conditions second.2) "Overlap" = Some condOverlap /\
  conditionOf (conditions second.2) "Ready"
    = Some (mkCondition "Ready" "True" 0 100 "Ready" "provisioned") /\
  NoDup (Type_ <$> conditions second.2).
Proof.
  intros first second.
  destruct (C5_second_Run_differs_only_in_restamped_times builderKeepBoth
              Background okState (world0 [condReadyOld; condOverlap])
              okState_keeps
              (noHooks_keep builderKeepBoth eq_refl eq_refl eq_refl))
    as (Hunset & Hsingle & _ & Hnd).
  split; [|split].
  - transitivity (conditionOf (conditions first.2) "Overlap"); [|reflexivity].
    apply Hunset. simpl. rewrite list_elem_of_singleton. discriminate.
  - transitivity (conditionOf (conditions first.2) "Ready"); [|reflexivity].
    apply (Hsingle "Ready" condReady); [reflexivity|].
    left. simpl. apply elem_of_union. right.
    apply elem_of_union. left. by apply elem_of_singleton.
  - apply Hnd. cbn. apply NoDup_cons. split; [|apply NoDup_singleton].
    rewrite list_elem_of_singleton. discriminate.
Defined.
